(** * claude_export_converter: JSON chat export to Markdown transcripts

    A shallow embedding of [claude_export_converter.py] and the properties
    of its filename sanitizer, structure normalizer, message formatter and
    conversion driver.

    Modelling conventions.
    - A parsed JSON document is the closed sum type [json]; a Python [dict]
      is an association list (lookup takes the first binding of a key), a
      Python [list] is a [list json], a Python [str] is a [string] (one
      [ascii] per character), an [int] is a [Z] and a [float] is a
      [spec_float].
    - Code that can raise is written in the error monad [result]; the
      driver, which also prints and writes files, runs in a state and error
      monad over [world].
    - Paths follow [posixpath]. *)

From Stdlib Require Import ZArith Ascii String List Lia.
From Stdlib Require Import Floats.SpecFloat.
From stdpp Require Import base list strings pretty.

Local Open Scope string_scope.
Local Open Scope list_scope.
Local Open Scope nat_scope.

(** ** Strings *)

Module Str.

Fixpoint filter (p : ascii → bool) (s : string) : string :=
  match s with
  | "" => ""
  | String c s' => if p c then String c (filter p s') else filter p s'
  end.

Fixpoint map (f : ascii → ascii) (s : string) : string :=
  match s with
  | "" => ""
  | String c s' => String (f c) (map f s')
  end.

Fixpoint take (n : nat) (s : string) : string :=
  match n, s with
  | S n', String c s' => String c (take n' s')
  | _, _ => ""
  end.

(** [s.lstrip(chars)], [s.rstrip(chars)] and [s.strip(chars)]. *)
Fixpoint lstrip (p : ascii → bool) (s : string) : string :=
  match s with
  | "" => ""
  | String c s' => if p c then lstrip p s' else s
  end.

Definition rstrip (p : ascii → bool) (s : string) : string :=
  String.rev (lstrip p (String.rev s)).

Definition strip (p : ascii → bool) (s : string) : string :=
  rstrip p (lstrip p s).

(** [sub in s] on two strings. *)
Fixpoint contains (sub s : string) : bool :=
  String.prefix sub s ||
  match s with
  | "" => false
  | String _ s' => contains sub s'
  end.

(** [sep.join(parts)]. *)
Fixpoint join (sep : string) (parts : list string) : string :=
  match parts with
  | [] => ""
  | [p] => p
  | p :: rest => p +:+ sep +:+ join sep rest
  end.

(** The characters of a string, as a list. *)
Definition chars (s : string) : list ascii := list_ascii_of_string s.
Global Arguments chars : simpl never.

Definition mem (c : ascii) (cs : list ascii) : bool :=
  bool_decide (c ∈ cs).

(** Case mapping of the ASCII letters: what [str.capitalize] does on ASCII
    text.  The driver takes [str.capitalize] itself from its environment
    ([py_capitalize]); this one serves the sample environments. *)
Definition upper (c : ascii) : ascii :=
  let n := nat_of_ascii c in
  if (97 <=? n)%nat && (n <=? 122)%nat then ascii_of_nat (n - 32) else c.

Definition lower (c : ascii) : ascii :=
  let n := nat_of_ascii c in
  if (65 <=? n)%nat && (n <=? 90)%nat then ascii_of_nat (n + 32) else c.

Definition capitalize (s : string) : string :=
  match s with
  | "" => ""
  | String c s' => String (upper c) (map lower s')
  end.

(** [s.rfind(c)]: the last index of [c] in [s], or [-1]. *)
Fixpoint rfind (c : ascii) (s : string) : Z :=
  match s with
  | "" => -1
  | String a s' =>
      let r := rfind c s' in
      if (0 <=? r)%Z then (r + 1)%Z
      else if bool_decide (a = c) then 0%Z else (-1)%Z
  end.

(** [s[n:]] for [0 <= n]. *)
Fixpoint drop (n : nat) (s : string) : string :=
  match n, s with
  | S n', String _ s' => drop n' s'
  | _, _ => s
  end.

Fixpoint forallb (p : ascii → bool) (s : string) : bool :=
  match s with
  | "" => true
  | String c s' => p c && forallb p s'
  end.

Definition starts_with (c : ascii) (s : string) : bool :=
  match s with
  | String a _ => bool_decide (a = c)
  | "" => false
  end.

Definition ends_with (c : ascii) (s : string) : bool :=
  starts_with c (String.rev s).

(** The line feed character. *)
Definition nl : string := String (ascii_of_nat 10) "".

End Str.

(** ** JSON values and Python's operations on them *)

#[local] Unset Elimination Schemes.
Inductive json : Type :=
| JNull
| JBool (b : bool)
| JInt (z : Z)
| JFloat (f : spec_float)
| JStr (s : string)
| JList (l : list json)
| JDict (d : list (string * json)).
#[local] Set Elimination Schemes.

(** The exceptions that the program meets.  [OSError] stands for the class
    with its subclasses ([FileNotFoundError], [PermissionError], ...). *)
Inductive exn : Type :=
| TypeError
| AttributeError
| KeyError
| OSError.

Inductive result (A : Type) : Type :=
| Ok (a : A)
| Raise (e : exn).
Arguments Ok {A} a.
Arguments Raise {A} e.

Definition rbind {A B} (m : result A) (k : A → result B) : result B :=
  match m with
  | Ok a => k a
  | Raise e => Raise e
  end.

Declare Scope result_scope.
Delimit Scope result_scope with result.
Notation "x <- m ;; k" := (rbind m (fun x => k))
  (at level 100, m at next level, right associativity) : result_scope.

Module Py.

Fixpoint dict_get (d : list (string * json)) (k : string) : option json :=
  match d with
  | [] => None
  | (k', v) :: d' => if String.eqb k' k then Some v else dict_get d' k
  end.

Definition has_key (d : list (string * json)) (k : string) : bool :=
  match dict_get d k with Some _ => true | None => false end.

Definition is_str (k : string) (v : json) : bool :=
  match v with
  | JStr s => String.eqb s k
  | _ => false
  end.

(** [k in c] for a string [k]: key membership on a dict, element
    membership on a list, substring test on a string; anything else is
    not iterable. *)
Definition contains (k : string) (c : json) : result bool :=
  match c with
  | JDict d => Ok (has_key d k)
  | JList l => Ok (existsb (is_str k) l)
  | JStr s => Ok (Str.contains k s)
  | _ => Raise TypeError
  end.

(** [c[k]] for a string [k]. *)
Definition getitem (c : json) (k : string) : result json :=
  match c with
  | JDict d =>
      match dict_get d k with
      | Some v => Ok v
      | None => Raise KeyError
      end
  | _ => Raise TypeError
  end.

Definition float_is_zero (f : spec_float) : bool :=
  match f with
  | S754_zero _ => true
  | _ => false
  end.

(** Truth value of an object. *)
Definition truthy (v : json) : bool :=
  match v with
  | JNull => false
  | JBool b => b
  | JInt z => negb (z =? 0)%Z
  | JFloat f => negb (float_is_zero f)
  | JStr s => negb (String.eqb s "")
  | JList l => match l with [] => false | _ => true end
  | JDict d => match d with [] => false | _ => true end
  end.

Definition is_list (v : json) : bool :=
  match v with JList _ => true | _ => false end.
Definition is_dict (v : json) : bool :=
  match v with JDict _ => true | _ => false end.
Definition is_string (v : json) : bool :=
  match v with JStr _ => true | _ => false end.
(** [isinstance(v, (int, float))]; [bool] is a subclass of [int]. *)
Definition is_number (v : json) : bool :=
  match v with JInt _ | JFloat _ | JBool _ => true | _ => false end.

(** [v == s] for a string [s]. *)
Definition eq_str (v : json) (s : string) : bool := is_str s v.

End Py.

(** ** Filename Sanitizer *)

(** The class of the pattern in [re.sub]: backslash, slash, asterisk,
    question mark, colon, double quote, angle brackets, pipe. *)
Definition backslash : ascii := ascii_of_nat 92.
Definition dquote : ascii := ascii_of_nat 34.

Definition invalid_chars : list ascii :=
  [backslash; "/"; "*"; "?"; ":"; dquote; "<"; ">"; "|"]%char.

Definition strip_chars : list ascii := ["."; " "]%char.

Definition space_to_underscore (c : ascii) : ascii :=
  if bool_decide (c = " "%char) then "_"%char else c.

Definition sanitize_filename (filename : json) : result string :=
  match filename with
  | JStr filename =>
      let sanitized := Str.filter (fun c => negb (Str.mem c invalid_chars)) filename in
      let sanitized := Str.map space_to_underscore sanitized in
      let sanitized := Str.strip (fun c => Str.mem c strip_chars) sanitized in
      Ok (if negb (String.eqb sanitized "") then Str.take 100 sanitized
          else "Untitled")
  | _ => Raise TypeError
  end.

(** The value of [sanitized] before the final truncation. *)
Definition cleaned (filename : string) : string :=
  Str.strip (fun c => Str.mem c strip_chars)
    (Str.map space_to_underscore
       (Str.filter (fun c => negb (Str.mem c invalid_chars)) filename)).

(** ** Paths ([posixpath]) *)

(** [os.path.join(a, b)]. *)
Definition path_join (a b : string) : string :=
  if Str.starts_with "/" b then b
  else if String.eqb a "" || Str.ends_with "/" a then a +:+ b
  else a +:+ "/" +:+ b.

(** [os.path.splitext(p)]: split at the last dot of the last path
    component, unless that component has only dots before it. *)
Definition splitext (p : string) : string * string :=
  let sepIndex := Str.rfind "/" p in
  let dotIndex := Str.rfind "." p in
  if (sepIndex <? dotIndex)%Z then
    let filenameIndex := Z.to_nat (sepIndex + 1) in
    let leading := Str.take (Z.to_nat dotIndex - filenameIndex)
                            (Str.drop filenameIndex p) in
    if Str.forallb (fun c => bool_decide (c = "."%char)) leading then (p, "")
    else (Str.take (Z.to_nat dotIndex) p, Str.drop (Z.to_nat dotIndex) p)
  else (p, "").

(** ** The world of the driver: files, directories, console *)

Record world : Type := World {
  files : list (string * string);   (* path and content, in creation order *)
  dirs : list string;
  out : list string                 (* printed lines, oldest first *)
}.

Inductive outcome (A : Type) : Type :=
| Done (a : A) (w : world)
| Failed (e : exn) (w : world).
Arguments Done {A} a w.
Arguments Failed {A} e w.

Definition M (A : Type) : Type := world → outcome A.

Definition ret {A} (a : A) : M A := fun w => Done a w.

Definition bind {A B} (m : M A) (k : A → M B) : M B :=
  fun w =>
    match m w with
    | Done a w' => k a w'
    | Failed e w' => Failed e w'
    end.

Definition lift {A} (r : result A) : M A :=
  fun w =>
    match r with
    | Ok a => Done a w
    | Raise e => Failed e w
    end.

(** [try: body  except Exception as e: handler(e)]. *)
Definition try_except (body : M unit) (handler : exn → M unit) : M unit :=
  fun w =>
    match body w with
    | Done a w' => Done a w'
    | Failed e w' => handler e w'
    end.

Declare Scope io_scope.
Delimit Scope io_scope with io.
Notation "x <- m ;; k" := (bind m (fun x => k))
  (at level 100, m at next level, right associativity) : io_scope.
Notation "m ;; k" := (bind m (fun _ => k))
  (at level 100, right associativity) : io_scope.

Definition print (line : string) : M unit :=
  fun w => Done tt {| files := files w; dirs := dirs w; out := out w ++ [line] |}.

Module Fs.

(** [os.path.exists(p)]. *)
Definition exists_ (p : string) (w : world) : bool :=
  bool_decide (p ∈ (files w).*1) || bool_decide (p ∈ dirs w).

Fixpoint set_content (p content : string) (fs : list (string * string))
  : list (string * string) :=
  match fs with
  | [] => []
  | (q, c) :: fs' =>
      if String.eqb q p then (q, content) :: fs'
      else (q, c) :: set_content p content fs'
  end.

Fixpoint content (p : string) (fs : list (string * string)) : string :=
  match fs with
  | [] => ""
  | (q, c) :: fs' => if String.eqb q p then c else content p fs'
  end.

(** The effect of [open(p, 'w')] on the files: truncate [p] if it is
    there, create it empty otherwise. *)
Definition create (p : string) (fs : list (string * string))
  : list (string * string) :=
  if bool_decide (p ∈ fs.*1) then set_content p "" fs else fs ++ [(p, "")].

Definition append (p chunk : string) (fs : list (string * string))
  : list (string * string) :=
  set_content p (content p fs +:+ chunk) fs.

(** [os.makedirs(d)].  The empty path cannot be created: [mkdir('')]
    raises [FileNotFoundError], an [OSError].  For any other path the
    operating system decides, [os_makedirs d]: the directories that are
    made, missing parents first, and the exception the call ends on, if it
    does.  No file is touched. *)
Definition makedirs (os_makedirs : string → list string * option exn)
    (d : string) : M unit :=
  fun w =>
    if String.eqb d "" then Failed OSError w
    else
      let w' := {| files := files w; dirs := dirs w ++ (os_makedirs d).1;
                   out := out w |} in
      match (os_makedirs d).2 with
      | Some e => Failed e w'
      | None => Done tt w'
      end.

End Fs.

(** What [open(json_file_path) ; json.load(f)] does. *)
Inductive load_result : Type :=
| FileNotFound
| JSONDecodeError (msg : string)
| OtherError (msg : string)
| Loaded (data : json).

(** ** Structure Normalizer, Message Formatter, Conversion Driver *)

Definition title_fields : list string :=
  ["name"; "title"; "conversation_title"; "subject"].
Definition message_fields : list string :=
  ["chat_messages"; "messages"; "conversation"; "history"].
Definition sender_fields : list string :=
  ["sender"; "role"; "author"; "from"].
Definition text_fields : list string :=
  ["text"; "content"; "message"; "body"].
Definition timestamp_fields : list string :=
  ["timestamp"; "created_at"; "time"; "date"].
Definition wrapper_keys : list string :=
  ["conversations"; "chats"; "data"; "items"].

(** The loop shared by all alias tables:
    [for field in fields: if field in obj and <sel obj[field]>: ...],
    leaving at the first field that is present and selected. *)
Fixpoint first_field {A} (sel : json → option A) (fields : list string)
    (obj : json) : result (option A) :=
  match fields with
  | [] => Ok None
  | field :: rest =>
      (present <- Py.contains field obj ;;
       if (present : bool) then
         v <- Py.getitem obj field ;;
         match sel v with
         | Some a => Ok (Some a)
         | None => first_field sel rest obj
         end
       else first_field sel rest obj)%result
  end.

Definition sel_list (v : json) : option (list json) :=
  match v with JList l => Some l | _ => None end.

Definition sel_truthy (v : json) : option json :=
  if Py.truthy v then Some v else None.

Definition extract_messages (conversation : json) : result (list json) :=
  (found <- first_field sel_list message_fields conversation ;;
   match found with
   | Some messages => Ok messages
   | None =>
       match conversation with
       | JList l => Ok l
       | _ => Ok []
       end
   end)%result.

(** [m.get(k, default)]: only a dict has the method. *)
Definition py_get (m : json) (k : string) (fallback : json) : result json :=
  match m with
  | JDict d => Ok (default fallback (Py.dict_get d k))
  | _ => Raise AttributeError
  end.

(** [v[:n]]: strings and lists can be sliced; any other value raises (the
    kind of the exception for a dict depends on the Python version and is
    not told apart here). *)
Definition py_slice_to (n : nat) (v : json) : result json :=
  match v with
  | JStr s => Ok (JStr (Str.take n s))
  | JList l => Ok (JList (take n l))
  | _ => Raise TypeError
  end.

(** [sep.join(parts)] needs every part to be a string. *)
Fixpoint all_strings (parts : list json) : result (list string) :=
  match parts with
  | [] => Ok []
  | JStr s :: rest => (ss <- all_strings rest ;; Ok (s :: ss))%result
  | _ :: _ => Raise TypeError
  end.

Definition py_join (sep : string) (parts : list json) : result string :=
  (ss <- all_strings parts ;; Ok (Str.join sep ss))%result.

(** The loop over the parts of a list-valued text field. *)
Fixpoint text_parts (parts : list json) : list json :=
  match parts with
  | [] => []
  | part :: rest =>
      match part with
      | JDict d =>
          match Py.dict_get d "text" with
          | Some t => t :: text_parts rest
          | None => text_parts rest
          end
      | JStr _ => part :: text_parts rest
      | _ => text_parts rest
      end
  end.

(** What the program takes from its environment:
    - [py_repr]: [repr] of floats, lists and dicts, as [str()] and
      f-strings show them;
    - [strftime_local]: what
      [datetime.fromtimestamp(t).strftime('%Y-%m-%d %H:%M:%S')] gives in the
      local time zone, [None] when it raises;
    - [exn_str]: [str(e)] of a caught exception;
    - [read_json]: loading the input file;
    - [open_fails], [write_fails]: failures of the operating system while
      record [i] is written, [open_fails i p] when opening [p] raises and
      [write_fails i p c] when a write to [p] raises once its content is
      [c];
    - [os_makedirs]: what [os.makedirs] does for a path that is not empty,
      the directories it makes and the exception it ends on, if any;
    - [py_capitalize]: [str.capitalize], which follows the Unicode case
      tables. *)
Record env : Type := Env {
  py_repr : json → string;
  strftime_local : json → option string;
  exn_str : exn → string;
  read_json : string → load_result;
  open_fails : nat → string → bool;
  write_fails : nat → string → string → bool;
  os_makedirs : string → list string * option exn;
  py_capitalize : string → string
}.

Section Converter.

Variable E : env.

Definition py_str (v : json) : string :=
  match v with
  | JNull => "None"
  | JBool true => "True"
  | JBool false => "False"
  | JInt z => pretty z
  | JStr s => s
  | _ => py_repr E v
  end.

Definition extract_conversation_title (conversation : json) : result json :=
  (found <- first_field sel_truthy title_fields conversation ;;
   match found with
   | Some title => Ok title
   | None =>
       messages <- extract_messages conversation ;;
       match messages with
       | m0 :: _ =>
           fallback <- py_get m0 "content" (JStr "") ;;
           v <- py_get m0 "text" fallback ;;
           first_message <- py_slice_to 50 v ;;
           if Py.truthy first_message
           then Ok (JStr ("Conversation_" +:+ py_str first_message))
           else Ok (JStr "Untitled_Conversation")
       | [] => Ok (JStr "Untitled_Conversation")
       end
   end)%result.

Definition resolve_sender (message : json) : result string :=
  (found <- first_field Some sender_fields message ;;
   match found with
   | Some v => Ok (py_capitalize E (py_str v))
   | None => Ok "Unknown"
   end)%result.

Definition resolve_text (message : json) : result json :=
  (found <- first_field Some text_fields message ;;
   match found with
   | Some (JDict d) =>
       match Py.dict_get d "text" with
       | Some t => Ok t
       | None => Ok (JDict d)
       end
   | Some (JList parts) =>
       text <- py_join Str.nl (text_parts parts) ;;
       Ok (JStr text)
   | Some text => Ok text
   | None => Ok (JStr "")
   end)%result.

Definition resolve_timestamp (message : json) : result (option json) :=
  first_field Some timestamp_fields message.

Definition timestamp_annotation (timestamp : option json) : string :=
  match timestamp with
  | Some t =>
      if Py.truthy t then
        if Py.is_number t then
          match strftime_local E t with
          | Some dt => " *(" +:+ dt +:+ ")*"
          | None => ""
          end
        else " *(" +:+ py_str t +:+ ")*"
      else ""
  | None => ""
  end.

Definition format_message (message : json) : result string :=
  (sender <- resolve_sender message ;;
   text <- resolve_text message ;;
   timestamp <- resolve_timestamp message ;;
   let formatted := "**" +:+ sender +:+ ":**" in
   let formatted := formatted +:+ timestamp_annotation timestamp in
   Ok (formatted +:+ Str.nl +:+ py_str text +:+ Str.nl))%result.

(** Lines 133-144 of the driver: the conversation list of the root. *)
Definition extract_conversation_list (data : json) : result (list json) :=
  match data with
  | JList l => Ok l
  | JDict _ =>
      (found <- first_field sel_list wrapper_keys data ;;
       match found with
       | Some (c :: cs) => Ok (c :: cs)
       | _ => Ok [data]
       end)%result
  | _ => Ok []
  end.

(** *** The driver *)

Local Open Scope io_scope.

Definition open_w (i : nat) (p : string) : M unit :=
  fun w =>
    if open_fails E i p then Failed OSError w
    else Done tt {| files := Fs.create p (files w); dirs := dirs w;
                    out := out w |}.

Definition write (i : nat) (p chunk : string) : M unit :=
  fun w =>
    if write_fails E i p (Fs.content p (files w)) then Failed OSError w
    else Done tt {| files := Fs.append p chunk (files w); dirs := dirs w;
                    out := out w |}.

(** The body of the duplicate loop:
    [base, ext = os.path.splitext(original_filename)] and
    [md_filename = f"{base}_{counter}{ext}"]. *)
Definition numbered (original_filename : string) (counter : nat) : string :=
  let '(base, ext) := splitext original_filename in
  base +:+ "_" +:+ pretty counter +:+ ext.

(** The [while os.path.exists(md_filename)] loop.  [fuel] bounds the
    number of tests; [dedup_fuel] is enough for the loop to leave by its
    own condition (lemma [dedup_loop_unused]). *)
Fixpoint dedup_loop (fuel : nat) (w : world)
    (original_filename md_filename : string) (counter : nat) : string :=
  match fuel with
  | 0 => md_filename
  | S fuel' =>
      if Fs.exists_ md_filename w then
        dedup_loop fuel' w original_filename
          (numbered original_filename counter) (S counter)
      else md_filename
  end.

Definition dedup_fuel (w : world) : nat :=
  2 + length (files w) + length (dirs w).

Definition unused_filename (md_filename : string) : M string :=
  fun w => Done (dedup_loop (dedup_fuel w) w md_filename md_filename 1) w.

Fixpoint write_messages (i : nat) (p : string) (messages : list json)
  : M unit :=
  match messages with
  | [] => ret tt
  | message :: rest =>
      (if Py.is_dict message then
         formatted_message <- lift (format_message message) ;;
         write i p (formatted_message +:+ Str.nl)
       else ret tt) ;;
      write_messages i p rest
  end.

Definition write_metadata (i : nat) (p : string) (conversation : json)
  : M unit :=
  has_created <- lift (Py.contains "created_at" conversation) ;;
  has_any <- (if (has_created : bool) then ret true
              else lift (Py.contains "updated_at" conversation)) ;;
  if (has_any : bool) then
    write i p ("## Metadata" +:+ Str.nl) ;;
    c <- lift (Py.contains "created_at" conversation) ;;
    (if (c : bool) then
       v <- lift (Py.getitem conversation "created_at") ;;
       write i p ("- Created: " +:+ py_str v +:+ Str.nl)
     else ret tt) ;;
    u <- lift (Py.contains "updated_at" conversation) ;;
    (if (u : bool) then
       v <- lift (Py.getitem conversation "updated_at") ;;
       write i p ("- Updated: " +:+ py_str v +:+ Str.nl)
     else ret tt) ;;
    write i p (Str.nl +:+ "---" +:+ Str.nl +:+ Str.nl)
  else ret tt.

(** The body of [with open(md_filename, 'w') as md_file]. *)
Definition transcript_body (i : nat) (conversation title : json)
    (md_filename : string) : M unit :=
  write i md_filename ("# " +:+ py_str title +:+ Str.nl +:+ Str.nl) ;;
  write_metadata i md_filename conversation ;;
  messages <- lift (extract_messages conversation) ;;
  match messages with
  | _ :: _ => write_messages i md_filename messages
  | [] =>
      write i md_filename
        ("*No messages found in this conversation.*" +:+ Str.nl)
  end.

(** The body of the [try] block of one conversation. *)
Definition write_transcript (i : nat) (conversation title : json)
    (md_filename : string) : M unit :=
  open_w i md_filename ;;
  transcript_body i conversation title md_filename ;;
  print ("Successfully created: " +:+ md_filename).

Definition override_title (n i : nat) (title : json) : json :=
  if Py.eq_str title "Untitled_Conversation" && (1 <? n)%nat
  then JStr ("Conversation_" +:+ pretty (i + 1))
  else title.

(** One turn of [for i, conversation in enumerate(conversations)];
    [n] is [len(conversations)]. *)
Definition convert_one (output_dir : string) (n i : nat)
    (conversation : json) : M unit :=
  title <- lift (extract_conversation_title conversation) ;;
  let title := override_title n i title in
  sanitized_title <- lift (sanitize_filename title) ;;
  let md_filename := path_join output_dir (sanitized_title +:+ ".md") in
  md_filename <- unused_filename md_filename ;;
  try_except
    (write_transcript i conversation title md_filename)
    (fun e =>
       print ("Error processing conversation " +:+ pretty (i + 1) +:+ ": "
              +:+ exn_str E e)).

Fixpoint convert_loop (output_dir : string) (n i : nat)
    (conversations : list json) : M unit :=
  match conversations with
  | [] => ret tt
  | conversation :: rest =>
      convert_one output_dir n i conversation ;;
      convert_loop output_dir n (S i) rest
  end.

Definition convert_conversations_to_md (json_file_path output_dir : string)
  : M unit :=
  present <- (fun w => Done (Fs.exists_ output_dir w) w) ;;
  (if (present : bool) then ret tt
   else
     Fs.makedirs (os_makedirs E) output_dir ;;
     print ("Created directory: " +:+ output_dir)) ;;
  match read_json E json_file_path with
  | FileNotFound =>
      print ("Error: The file '" +:+ json_file_path +:+ "' was not found.")
  | JSONDecodeError e =>
      print ("Error: The file '" +:+ json_file_path
             +:+ "' is not a valid JSON file.") ;;
      print ("JSON Error: " +:+ e)
  | OtherError e => print ("Error reading file: " +:+ e)
  | Loaded data =>
      conversations <- lift (extract_conversation_list data) ;;
      match conversations with
      | [] => print "No conversations found in the JSON file."
      | _ :: _ =>
          print ("Found " +:+ pretty (length conversations)
                 +:+ " conversations to convert.") ;;
          convert_loop output_dir (length conversations) 0 conversations ;;
          print (Str.nl +:+ "Conversion complete! Check the '" +:+ output_dir
                 +:+ "' directory for your markdown files.")
      end
  end.

End Converter.

(** ** Structure Analyzer and entry point *)

(** [type(v).__name__]. *)
Definition type_name (v : json) : string :=
  match v with
  | JNull => "NoneType"
  | JBool _ => "bool"
  | JInt _ => "int"
  | JFloat _ => "float"
  | JStr _ => "str"
  | JList _ => "list"
  | JDict _ => "dict"
  end.

(** [d.items()]: each key once, in the order of first appearance, with the
    binding that lookup finds. *)
Fixpoint dict_items (d : list (string * json)) : list (string * json) :=
  match d with
  | [] => []
  | (k, v) :: d' => (k, v) :: filter (λ kv, kv.1 ≠ k) (dict_items d')
  end.

(** [" " * n]. *)
Fixpoint spaces (n : nat) : string :=
  match n with
  | 0 => ""
  | S n' => String " " (spaces n')
  end.

(** [print_structure(obj, indent, max_depth)], as the list of the lines it
    prints.  The recursive calls leave [max_depth] at its default 3.
    [fuel] bounds the nesting of calls. *)
Fixpoint print_structure_fuel (fuel : nat) (obj : json) (indent max_depth : nat)
  : list string :=
  match fuel with
  | 0 => []
  | S fuel' =>
      if max_depth * 2 <? indent then []
      else
        let prefix := spaces indent in
        match obj with
        | JDict d =>
            flat_map
              (λ kv,
                 (prefix +:+ kv.1 +:+ ": " +:+ type_name kv.2)
                 :: (if Py.is_dict kv.2 || Py.is_list kv.2
                     then print_structure_fuel fuel' kv.2 (indent + 2) 3
                     else []))
              (take 5 (dict_items d))
        | JList (first :: _) =>
            (prefix +:+ "[0]: " +:+ type_name first)
            :: (if Py.is_dict first || Py.is_list first
                then print_structure_fuel fuel' first (indent + 2) 3
                else [])
        | _ => []
        end
  end.

(** Five nested calls are as deep as the recursion goes (lemma
    [print_structure_fuel_same]). *)
Definition print_structure (obj : json) (indent max_depth : nat)
  : list string :=
  print_structure_fuel 5 obj indent max_depth.

Fixpoint print_all (lines : list string) : M unit :=
  match lines with
  | [] => ret tt
  | line :: rest => (print line ;; print_all rest)%io
  end.

Section Analyzer.

Variable E : env.
(** [str(e)] of the [FileNotFoundError] that opening a path raises. *)
Variable not_found_str : string → string.

Local Open Scope io_scope.

Definition analyze_json_structure (json_file_path : string) : M unit :=
  match read_json E json_file_path with
  | Loaded data =>
      print "=== JSON Structure Analysis ===" ;;
      print ("Root type: " +:+ type_name data) ;;
      match data with
      | JList l =>
          print ("Number of items: " +:+ pretty (length l)) ;;
          match l with
          | first :: _ =>
              print (Str.nl +:+ "First item structure:") ;;
              print_all (print_structure first 2 3)
          | [] => ret tt
          end
      | JDict d =>
          print ("Root keys: "
                 +:+ py_repr E (JList (JStr <$> (dict_items d).*1))) ;;
          print (Str.nl +:+ "Structure:") ;;
          print_all (print_structure data 2 3)
      | _ => ret tt
      end
  | FileNotFound =>
      print ("Error analyzing file: " +:+ not_found_str json_file_path)
  | JSONDecodeError e => print ("Error analyzing file: " +:+ e)
  | OtherError e => print ("Error analyzing file: " +:+ e)
  end.

(** The [__main__] block. *)
Definition main : M unit :=
  let json_file := "conversations.json" in
  print ("Analyzing JSON structure..." +:+ Str.nl) ;;
  analyze_json_structure json_file ;;
  print (Str.nl +:+ Str.nl +:+ "Starting conversion..." +:+ Str.nl) ;;
  convert_conversations_to_md E json_file "markdown_transcripts".

End Analyzer.

(** ** The text of a transcript *)

(** What the transcript of a conversation holds when it is written to its
    end, read off the writes of [transcript_body] in their order. *)
Section TranscriptText.

Variable E : env.

Local Open Scope result_scope.





End TranscriptText.

(** ** Auxiliary notions used in the statements *)

(** The first message of a conversation lets the title fallback go
    through: there is no message, or the first one is a mapping whose
    [text] (or, without one, [content]) is absent, a string or a sequence. *)
Definition title_source_ok (messages : list json) : bool :=
  match messages with
  | [] => true
  | JDict m0 :: _ =>
      let v := default (default (JStr "") (Py.dict_get m0 "content"))
                       (Py.dict_get m0 "text") in
      Py.is_string v || Py.is_list v
  | _ :: _ => false
  end.

(** No element of a list is one of the given strings. *)
Definition no_alias_element (fields : list string) (l : list json) : bool :=
  forallb (fun field => negb (existsb (Py.is_str field) l)) fields.

(** A part of a list-valued text field and the text it stands for: a
    plain string, or a mapping with a string under [text]. *)
Inductive part_text : json → string → Prop :=
| part_plain s : part_text (JStr s) s
| part_mapping d s :
    Py.dict_get d "text" = Some (JStr s) → part_text (JDict d) s.

(** A message mapping with its timestamp-like fields taken away. *)
Definition without_timestamp (m : list (string * json))
  : list (string * json) :=
  filter (λ kv, kv.1 ∉ timestamp_fields) m.

(** The world an outcome leaves behind. *)
Definition final {A} (o : outcome A) : world :=
  match o with
  | Done _ w => w
  | Failed _ w => w
  end.

(** A computation keeps a property of the world, however it ends. *)
Definition preserves {A} (I : world → Prop) (m : M A) : Prop :=
  ∀ w, I w → I (final (m w)).

(** The paths that exist in a world. *)
Definition paths (w : world) : list string := (files w).*1 ++ dirs w.

(** What [sanitize_filename] guarantees of a filename stem for the path
    functions: not empty, no separator, no leading dot. *)
Definition is_stem (stem : string) : Prop :=
  stem ≠ "" ∧ ("/"%char ∉ Str.chars stem) ∧ Str.starts_with "." stem = false.

(** The directory part that [path_join] puts before a relative name. *)
Definition dir_prefix (a : string) : string :=
  if String.eqb a "" || Str.ends_with "/" a then a else a +:+ "/".

(** The file [p], new in [w0], is being written in [w]: nothing else has
    changed since [w0], and the content of [p] starts with [c0]. *)
Definition writing (w0 : world) (p c0 : string) (w : world) : Prop :=
  dirs w = dirs w0 ∧ out w = out w0
  ∧ ∃ rest, files w = files w0 ++ [(p, c0 +:+ rest)].

(** The path the driver settles on for a filename stem: what the
    duplicate loop returns from [os.path.join(output_dir, stem + ".md")]. *)
Definition chosen_filename (w : world) (output_dir stem : string) : string :=
  let md_filename := path_join output_dir (stem +:+ ".md") in
  dedup_loop (dedup_fuel w) w md_filename md_filename 1.

(** The lines the driver prints for a conversation. *)
Definition success_line (md_filename : string) : string :=
  "Successfully created: " +:+ md_filename.

Definition error_line (E : env) (i : nat) (e : exn) : string :=
  "Error processing conversation " +:+ pretty (i + 1) +:+ ": " +:+ exn_str E e.

(** The level-1 heading written for a title. *)
Definition heading (E : env) (title : json) : string :=
  "# " +:+ py_str E title +:+ Str.nl +:+ Str.nl.

Definition no_messages_line : string :=
  "*No messages found in this conversation.*" +:+ Str.nl.

(** A world with one more printed line. *)
Definition printed (line : string) (w : world) : world :=
  {| files := files w; dirs := dirs w; out := out w ++ [line] |}.

(** A character that the sanitizer leaves alone wherever it stands. *)
Definition plain_char (c : ascii) : bool :=
  negb (Str.mem c invalid_chars) && negb (Str.mem c strip_chars).

(** The title and the filename stem of a conversation whose resolved title
    is the generic fallback, in a run of [n] conversations. *)
Definition untitled_title (n i : nat) : json :=
  if 1 <? n then JStr ("Conversation_" +:+ pretty (i + 1))
  else JStr "Untitled_Conversation".

Definition untitled_stem (n i : nat) : string :=
  if 1 <? n then Str.take 100 ("Conversation_" +:+ pretty (i + 1))
  else "Untitled_Conversation".

(** Sample environments for the examples: the input file holds [data],
    no date can be rendered, opening an output file fails or not, a
    directory that is asked for is made as it stands (its parent is there),
    and the text is ASCII. *)
Definition sample_env (data : json) (open_fails : bool) : env :=
  {| py_repr := λ _, "?";
     strftime_local := λ _, None;
     exn_str := λ _, "I/O error";
     read_json := λ _, Loaded data;
     open_fails := λ _ _, open_fails;
     write_fails := λ _ _ _, false;
     os_makedirs := λ d, ([d], None);
     py_capitalize := Str.capitalize |}.

Definition empty_world : world := World [] [] [].

(** The output directory is there for the driver: it exists, or it has a
    name and [os.makedirs] makes it without an error. *)
Definition dir_ready (E : env) (output_dir : string) (w : world) : bool :=
  Fs.exists_ output_dir w
  || negb (String.eqb output_dir "")
     && match (os_makedirs E output_dir).2 with
        | None => true
        | Some _ => false
        end.

(** The directories that the driver's first step makes: none when the
    output directory exists or has no name, and otherwise what
    [os.makedirs] makes, also when it ends on an error. *)
Definition made_dirs (E : env) (output_dir : string) (w : world)
  : list string :=
  if Fs.exists_ output_dir w || String.eqb output_dir "" then []
  else (os_makedirs E output_dir).1.

(** The world once the driver has seen to its output directory, when that
    went well. *)
Definition after_makedirs (E : env) (output_dir : string) (w : world)
  : world :=
  if Fs.exists_ output_dir w then w
  else {| files := files w; dirs := dirs w ++ (os_makedirs E output_dir).1;
          out := out w ++ ["Created directory: " +:+ output_dir] |}.



(** The most lines [print_structure] can print through [levels] nested
    levels: five keys a level, each with one line and what lies below. *)
Fixpoint structure_bound (levels : nat) : nat :=
  match levels with
  | 0 => 0
  | S levels' => 5 * (1 + structure_bound levels')
  end.

(** The nested levels left at an indentation, under the default depth. *)
Definition levels_left (indent : nat) : nat := (8 - indent) / 2.

(** Two worlds with the same files and directories, whatever was printed. *)
Definition same_fs (w1 w2 : world) : Prop :=
  files w1 = files w2 ∧ dirs w1 = dirs w2.

(** Two outcomes that end the same way, with the same value or exception,
    on the same files and directories. *)
Definition same_result {A} (o1 o2 : outcome A) : Prop :=
  match o1, o2 with
  | Done a1 w1, Done a2 w2 => a1 = a2 ∧ same_fs w1 w2
  | Failed e1 w1, Failed e2 w2 => e1 = e2 ∧ same_fs w1 w2
  | _, _ => False
  end.

(** A computation that does not look at what was printed. *)
Definition log_free {A} (m : M A) : Prop :=
  ∀ w1 w2, same_fs w1 w2 → same_result (m w1) (m w2).

(** * Properties *)

(** ** Strings *)

Section StrFacts.

Implicit Types (s t : string) (c : ascii) (p : ascii → bool).

Lemma chars_cons c s : Str.chars (String c s) = c :: Str.chars s.
Proof. reflexivity. Qed.

Lemma str_app_cons c s t : String c s +:+ t = String c (s +:+ t).
Proof. reflexivity. Qed.

Lemma str_app_empty_r s : s +:+ "" = s.
Proof.
  induction s as [|a s IH]; [done|]. by rewrite str_app_cons, IH.
Qed.

Lemma str_app_assoc s t u : s +:+ (t +:+ u) = (s +:+ t) +:+ u.
Proof.
  induction s as [|a s IH]; [done|]. by rewrite !str_app_cons, IH.
Qed.

Lemma chars_app s t : Str.chars (s +:+ t) = (Str.chars s ++ Str.chars t)%list.
Proof.
  induction s as [|a s IH]; [reflexivity|].
  change (String a s +:+ t) with (String a (s +:+ t)).
  rewrite !chars_cons, IH. reflexivity.
Qed.

Lemma elem_of_filter c p s :
  c ∈ Str.chars (Str.filter p s) → p c = true ∧ c ∈ Str.chars s.
Proof.
  induction s as [|a s IH]; simpl; [by intros ?%elem_of_nil|].
  destruct (p a) eqn:Hpa; rewrite ?chars_cons.
  - intros [->|Hin]%elem_of_cons; [split; [done|left]|].
    destruct (IH Hin). split; [done|by right].
  - intros Hin. destruct (IH Hin). split; [done|by right].
Qed.

Lemma elem_of_map c (f : ascii → ascii) s :
  c ∈ Str.chars (Str.map f s) → ∃ a, c = f a ∧ a ∈ Str.chars s.
Proof.
  induction s as [|a s IH]; simpl; [by intros ?%elem_of_nil|].
  rewrite !chars_cons. intros [->|Hin]%elem_of_cons.
  - exists a. split; [done|left].
  - destruct (IH Hin) as (b & -> & Hb). exists b. split; [done|by right].
Qed.

Lemma elem_of_take c n s : c ∈ Str.chars (Str.take n s) → c ∈ Str.chars s.
Proof.
  revert s. induction n as [|n IH]; intros [|a s]; simpl;
    try by intros ?%elem_of_nil.
  rewrite !chars_cons. intros [->|Hin]%elem_of_cons; [left|right; auto].
Qed.

Lemma elem_of_lstrip c p s :
  c ∈ Str.chars (Str.lstrip p s) → c ∈ Str.chars s.
Proof.
  induction s as [|a s IH]; simpl; [done|].
  destruct (p a); [|done]. rewrite chars_cons. right. auto.
Qed.

Lemma elem_of_rev_app c s t :
  c ∈ Str.chars (String.rev_app s t) ↔ c ∈ Str.chars s ∨ c ∈ Str.chars t.
Proof.
  revert t. induction s as [|a s IH]; intros t; simpl.
  - split; [by right|]. intros [?%elem_of_nil|?]; done.
  - rewrite IH, !chars_cons, !elem_of_cons. tauto.
Qed.

Lemma elem_of_rev c s : c ∈ Str.chars (String.rev s) ↔ c ∈ Str.chars s.
Proof.
  unfold String.rev. rewrite elem_of_rev_app. split; [|by left].
  intros [?|?%elem_of_nil]; done.
Qed.

Lemma elem_of_strip c p s : c ∈ Str.chars (Str.strip p s) → c ∈ Str.chars s.
Proof.
  unfold Str.strip, Str.rstrip.
  intros H%elem_of_rev%elem_of_lstrip%elem_of_rev%elem_of_lstrip. done.
Qed.

Lemma length_take n s : (String.length (Str.take n s) ≤ n)%nat.
Proof.
  revert s. induction n as [|n IH]; intros [|a s]; simpl; try lia.
  specialize (IH s). lia.
Qed.

Lemma take_nonempty n s : s ≠ "" → Str.take (S n) s ≠ "".
Proof. destruct s; simpl; congruence. Qed.

Lemma eqb_empty_false s : String.eqb s "" = false ↔ s ≠ "".
Proof. rewrite String.eqb_neq. done. Qed.

Lemma chars_inj s t : Str.chars s = Str.chars t → s = t.
Proof.
  unfold Str.chars. intros H.
  by rewrite <-(string_of_list_ascii_of_string s), H,
    string_of_list_ascii_of_string.
Qed.

Lemma str_app_inv_tail s t u : s +:+ u = t +:+ u → s = t.
Proof.
  intros H. apply chars_inj.
  apply (f_equal Str.chars) in H. rewrite !chars_app in H.
  by apply app_inv_tail in H.
Qed.

Lemma str_length_app s t :
  String.length (s +:+ t) = (String.length s + String.length t)%nat.
Proof.
  induction s as [|a s IH]; [done|]. rewrite str_app_cons. simpl. lia.
Qed.

Lemma chars_rev_app s t :
  Str.chars (String.rev_app s t) = (reverse (Str.chars s) ++ Str.chars t)%list.
Proof.
  revert t. induction s as [|a s IH]; intros t; [done|].
  simpl. rewrite IH, !chars_cons, reverse_cons, <-app_assoc. done.
Qed.

Lemma chars_rev s : Str.chars (String.rev s) = reverse (Str.chars s).
Proof. unfold String.rev. by rewrite chars_rev_app, app_nil_r. Qed.

Lemma rev_involutive s : String.rev (String.rev s) = s.
Proof. apply chars_inj. by rewrite !chars_rev, reverse_involutive. Qed.

Lemma rev_app s t : String.rev (s +:+ t) = String.rev t +:+ String.rev s.
Proof.
  apply chars_inj. by rewrite chars_rev, !chars_app, !chars_rev, reverse_app.
Qed.

Lemma lstrip_suffix p s : ∃ u, s = u +:+ Str.lstrip p s.
Proof.
  induction s as [|a s [u IH]]; [by exists ""|]. simpl.
  destruct (p a); [|by exists ""].
  exists (String a u). by rewrite str_app_cons, <-IH.
Qed.

Lemma lstrip_head p s :
  match Str.lstrip p s with
  | "" => True
  | String c _ => p c = false
  end.
Proof.
  induction s as [|a s IH]; [done|]. simpl.
  by destruct (p a) eqn:Hpa.
Qed.

Lemma lstrip_id p s : Str.forallb (λ c, negb (p c)) s = true → Str.lstrip p s = s.
Proof.
  destruct s as [|a s]; [done|]. simpl.
  intros [Ha _]%andb_true_iff. apply negb_true_iff in Ha. by rewrite Ha.
Qed.

Lemma rstrip_prefix p s : ∃ u, s = Str.rstrip p s +:+ u.
Proof.
  unfold Str.rstrip.
  destruct (lstrip_suffix p (String.rev s)) as [u Hu].
  exists (String.rev u).
  by rewrite <-rev_app, <-Hu, rev_involutive.
Qed.

Lemma forallb_chars p s :
  Str.forallb p s = true ↔ ∀ c, c ∈ Str.chars s → p c = true.
Proof.
  induction s as [|a s IH]; simpl.
  - split; [|done]. by intros _ c ?%elem_of_nil.
  - rewrite andb_true_iff, IH. setoid_rewrite chars_cons.
    setoid_rewrite elem_of_cons. split.
    + intros [Ha Hs] c [->|Hc]; [done|by apply Hs].
    + intros H. split; [apply H; by left|]. intros c Hc. apply H. by right.
Qed.

Lemma strip_id p s :
  Str.forallb (λ c, negb (p c)) s = true → Str.strip p s = s.
Proof.
  intros H. unfold Str.strip, Str.rstrip.
  rewrite (lstrip_id p s H), lstrip_id; [apply rev_involutive|].
  apply forallb_chars. intros c Hc. rewrite elem_of_rev in Hc.
  exact (proj1 (forallb_chars _ _) H c Hc).
Qed.

Lemma filter_id p s : Str.forallb p s = true → Str.filter p s = s.
Proof.
  induction s as [|a s IH]; [done|]. simpl.
  intros [-> Hs]%andb_true_iff. by rewrite IH.
Qed.

Lemma map_id (f : ascii → ascii) s :
  Str.forallb (λ c, bool_decide (f c = c)) s = true → Str.map f s = s.
Proof.
  induction s as [|a s IH]; [done|]. simpl.
  intros [Ha%bool_decide_eq_true Hs]%andb_true_iff. by rewrite Ha, IH.
Qed.

(** The first character survives stripping on the right and cutting. *)
Lemma strip_head p s :
  match Str.strip p s with
  | "" => True
  | String c _ => p c = false
  end.
Proof.
  unfold Str.strip.
  pose proof (lstrip_head p s) as Hhead.
  destruct (rstrip_prefix p (Str.lstrip p s)) as [u Hu].
  destruct (Str.rstrip p (Str.lstrip p s)) as [|c r]; [done|].
  rewrite Hu in Hhead. by rewrite str_app_cons in Hhead.
Qed.

Lemma take_head n s :
  match Str.take (S n) s, s with
  | String c _, String c' _ => c = c'
  | "", "" => True
  | _, _ => False
  end.
Proof. by destruct s. Qed.

Lemma take_app_length s t : Str.take (String.length s) (s +:+ t) = s.
Proof.
  induction s as [|a s IH]; [by destruct t|].
  rewrite str_app_cons. simpl. by rewrite IH.
Qed.

Lemma drop_app_length s t : Str.drop (String.length s) (s +:+ t) = t.
Proof. induction s as [|a s IH]; [by destruct t|]. by rewrite str_app_cons. Qed.

Lemma rfind_absent c s : c ∉ Str.chars s → Str.rfind c s = (-1)%Z.
Proof.
  induction s as [|a s IH]; [done|].
  rewrite chars_cons, not_elem_of_cons. intros [Hne Hs].
  simpl. rewrite (IH Hs). simpl. by rewrite bool_decide_eq_false_2.
Qed.

Lemma rfind_lower c s : (-1 ≤ Str.rfind c s)%Z.
Proof.
  induction s as [|a s IH]; simpl; [lia|].
  destruct (0 <=? Str.rfind c s)%Z eqn:H; [lia|]. case_bool_decide; lia.
Qed.

Lemma rfind_app_r c s t :
  (0 ≤ Str.rfind c t)%Z →
  Str.rfind c (s +:+ t) = (Z.of_nat (String.length s) + Str.rfind c t)%Z.
Proof.
  intros Ht. induction s as [|a s IH];
    [change ("" +:+ t) with t; simpl; lia|].
  rewrite str_app_cons. cbn [Str.rfind]. rewrite IH.
  destruct (Z.leb_spec 0 (Z.of_nat (String.length s) + Str.rfind c t));
    [|lia].
  cbn [String.length]. lia.
Qed.

Lemma rfind_app_l c s t :
  c ∉ Str.chars t → Str.rfind c (s +:+ t) = Str.rfind c s.
Proof.
  intros Ht. induction s as [|a s IH]; [by apply rfind_absent|].
  rewrite str_app_cons. simpl. by rewrite IH.
Qed.

Lemma rfind_last c s :
  Str.rfind c (s +:+ String c "") = Z.of_nat (String.length s).
Proof.
  rewrite rfind_app_r; simpl; rewrite bool_decide_eq_true_2 by done; lia.
Qed.

Lemma ends_with_split c s :
  Str.ends_with c s = true → ∃ u, s = u +:+ String c "".
Proof.
  unfold Str.ends_with, Str.starts_with.
  destruct (String.rev s) as [|a r] eqn:Hrev; [done|].
  intros ->%bool_decide_eq_true.
  exists (String.rev r).
  rewrite <-(rev_involutive s), Hrev.
  change (String c r) with (String c "" +:+ r). by rewrite rev_app.
Qed.

End StrFacts.

(** ** Filename Sanitizer *)

Lemma sanitize_filename_unfold filename :
  sanitize_filename (JStr filename) =
  Ok (if String.eqb (cleaned filename) "" then "Untitled"
      else Str.take 100 (cleaned filename)).
Proof.
  unfold sanitize_filename, cleaned.
  by destruct (String.eqb _ "").
Qed.

Lemma cleaned_valid c filename :
  c ∈ Str.chars (cleaned filename) → c ∉ invalid_chars.
Proof.
  unfold cleaned. intros Hc%elem_of_strip.
  apply elem_of_map in Hc as (a & -> & Ha).
  apply elem_of_filter in Ha as [Ha _].
  apply negb_true_iff, bool_decide_eq_false in Ha.
  unfold space_to_underscore. case_bool_decide; [|done].
  by apply (bool_decide_unpack _).
Qed.

(** C2. For every input string, [sanitize_filename] returns a result (it
    raises nothing), and that result contains none of the characters
    backslash, slash, asterisk, question mark, colon, double quote, angle
    brackets and pipe, is at most 100 characters long and is not empty; it
    is the literal [Untitled] exactly when the cleaned string is empty. *)
Theorem sanitize_filename_safe (filename : string) :
  ∃ r, sanitize_filename (JStr filename) = Ok r
       ∧ (∀ c, c ∈ Str.chars r → c ∉ invalid_chars)
       ∧ (String.length r ≤ 100)%nat
       ∧ r ≠ ""
       ∧ r = if String.eqb (cleaned filename) "" then "Untitled"
             else Str.take 100 (cleaned filename).
Proof.
  eexists. split; [apply sanitize_filename_unfold|].
  destruct (String.eqb (cleaned filename) "") eqn:He.
  - repeat split; [|vm_compute; lia|done].
    intros c Hc. change (c ∈ Str.chars "Untitled") in Hc.
    revert c Hc. apply Forall_forall.
    by apply (bool_decide_unpack _).
  - apply eqb_empty_false in He.
    repeat split.
    + intros c Hc%elem_of_take. by eapply cleaned_valid.
    + apply length_take.
    + by apply take_nonempty.
Qed.

(** ** Structure Normalizer *)

Section NormalizerFacts.

Context {A : Type} (sel : json → option A).

Lemma first_field_dict_cons field rest d :
  first_field sel (field :: rest) (JDict d) =
  match Py.dict_get d field with
  | Some v =>
      match sel v with
      | Some a => Ok (Some a)
      | None => first_field sel rest (JDict d)
      end
  | None => first_field sel rest (JDict d)
  end.
Proof.
  simpl. unfold Py.has_key. by destruct (Py.dict_get d field).
Qed.

Lemma first_field_dict_total fields d :
  ∃ r, first_field sel fields (JDict d) = Ok r.
Proof.
  induction fields as [|field rest IH]; [by eexists|].
  rewrite first_field_dict_cons.
  destruct (Py.dict_get d field) as [v|]; [|done].
  destruct (sel v); [by eexists|done].
Qed.

(** On a list the membership test compares elements, so the loop passes
    over every alias that is not an element. *)
Lemma first_field_list_none fields l :
  no_alias_element fields l = true →
  first_field sel fields (JList l) = Ok None.
Proof.
  induction fields as [|field rest IH]; [done|].
  simpl. intros [Hf Hrest]%andb_true_iff.
  apply negb_true_iff in Hf. rewrite Hf. auto.
Qed.

End NormalizerFacts.

Lemma extract_messages_dict d :
  extract_messages (JDict d) =
  Ok (match first_field sel_list message_fields (JDict d) with
      | Ok (Some messages) => messages
      | _ => []
      end).
Proof.
  unfold extract_messages.
  destruct (first_field_dict_total sel_list message_fields d) as [[l|] ->];
    reflexivity.
Qed.

Lemma extract_messages_list l :
  no_alias_element message_fields l = true →
  extract_messages (JList l) = Ok l.
Proof.
  intros H. unfold extract_messages.
  by rewrite (first_field_list_none _ _ _ H).
Qed.

(** C9, at the failing input.  On a record that is a sequence,
    [field in conversation] is element membership; when an alias is an
    element, [conversation[field]] is evaluated and raises, and the
    sequence is not returned. *)
Theorem extract_messages_alias_element :
  extract_messages (JList [JStr "messages"]) = Raise TypeError.
Proof. reflexivity. Qed.

(** What [extract_messages] does keep of its contract: a mapping yields the first alias, in the
    order chat_messages, messages, conversation, history, whose value is
    a sequence, and the empty sequence without one; a sequence holding
    none of the aliases as an element is returned as it is. *)
Lemma extract_messages_cases d l :
  extract_messages (JDict d) =
    Ok (match Py.dict_get d "chat_messages" with
        | Some (JList m) => m
        | _ =>
          match Py.dict_get d "messages" with
          | Some (JList m) => m
          | _ =>
            match Py.dict_get d "conversation" with
            | Some (JList m) => m
            | _ =>
              match Py.dict_get d "history" with
              | Some (JList m) => m
              | _ => []
              end
            end
          end
        end)
  ∧ (no_alias_element message_fields l = true →
     extract_messages (JList l) = Ok l).
Proof.
  split; [|apply extract_messages_list].
  rewrite extract_messages_dict. unfold message_fields.
  rewrite !first_field_dict_cons. unfold sel_list. simpl.
  repeat (case_match; simplify_eq; try done).
Qed.

(** The conversation list of the root never raises: a sequence is taken
    as it is, a mapping is searched for a wrapper key or taken as the one
    conversation, anything else gives the empty list. *)
Lemma extract_conversation_list_total data :
  ∃ cs, extract_conversation_list data = Ok cs.
Proof.
  destruct data as [| | | | |l|d]; try by eexists.
  unfold extract_conversation_list.
  destruct (first_field_dict_total sel_list wrapper_keys d) as [r ->].
  simpl. destruct r as [[|c cs]|]; by eexists.
Qed.

Lemma extract_conversation_title_dict E d :
  extract_conversation_title E (JDict d) =
  match first_field sel_truthy title_fields (JDict d) with
  | Ok (Some title) => Ok title
  | _ =>
      match extract_messages (JDict d) with
      | Ok (m0 :: _) =>
          (fallback <- py_get m0 "content" (JStr "") ;;
           v <- py_get m0 "text" fallback ;;
           first_message <- py_slice_to 50 v ;;
           if Py.truthy first_message
           then Ok (JStr ("Conversation_" +:+ py_str E first_message))
           else Ok (JStr "Untitled_Conversation"))%result
      | _ => Ok (JStr "Untitled_Conversation")
      end
  end.
Proof.
  unfold extract_conversation_title.
  destruct (first_field_dict_total sel_truthy title_fields d) as [[t|] ->];
    [done|].
  rewrite extract_messages_dict. simpl. by case_match.
Qed.

(** C5, counterexample.  A conversation record that is a number is a JSON
    value on which [extract_messages] raises: the membership test needs a
    container. *)
Lemma extract_messages_not_total :
  extract_messages (JInt 5) = Raise TypeError
  ∧ ¬ (∀ v : json, ∃ l, extract_messages v = Ok l).
Proof.
  split; [reflexivity|].
  intros H. destruct (H (JInt 5)) as [l Hl]. discriminate Hl.
Qed.

Lemma extract_messages_no_alias d :
  (∀ field l, field ∈ message_fields → Py.dict_get d field ≠ Some (JList l)) →
  extract_messages (JDict d) = Ok [].
Proof.
  intros Hnone. rewrite (proj1 (extract_messages_cases d [])).
  assert (∀ field (other : list json), field ∈ message_fields →
            match Py.dict_get d field with
            | Some (JList m) => m
            | _ => other
            end = other) as Hskip.
  { intros field other Hin. specialize (Hnone field).
    destruct (Py.dict_get d field) as [ [| | | | |m|]|]; try done.
    by destruct (Hnone m). }
  rewrite (Hskip "history") by (by repeat constructor).
  rewrite (Hskip "conversation") by (by repeat constructor).
  rewrite (Hskip "messages") by (by repeat constructor).
  by rewrite (Hskip "chat_messages") by (by repeat constructor).
Qed.

Lemma extract_conversation_title_ok E d messages :
  extract_messages (JDict d) = Ok messages →
  title_source_ok messages = true →
  ∃ title, extract_conversation_title E (JDict d) = Ok title.
Proof.
  intros Hm Hfirst.
  rewrite extract_conversation_title_dict, Hm.
  destruct (first_field sel_truthy title_fields (JDict d)) as [ [t|]|];
    [by eexists| |].
  all: destruct messages as [|m0 ms]; [by eexists|].
  all: unfold title_source_ok in Hfirst.
  all: destruct m0 as [| | | | | |m0]; try discriminate Hfirst.
  all: cbn [py_get rbind].
  all: destruct (default _ _) as [| | | |s|l|]; try discriminate Hfirst.
  all: cbn [py_slice_to rbind]; case_match; by eexists.
Qed.

(** C5, amended.  The conversation list of any JSON root is returned
    without error.  [extract_messages] returns a list for every mapping,
    the empty one when no alias holds a sequence.
    [extract_conversation_title] returns a title for every mapping whose
    first message, if there is one, is a mapping with a string or a
    sequence (or nothing) as its text.  On a record that is a number, a
    boolean or null both raise [TypeError]. *)
Theorem normalizer_total_on_mappings (E : env) :
  (∀ data, ∃ cs, extract_conversation_list data = Ok cs)
  ∧ (∀ d, ∃ messages, extract_messages (JDict d) = Ok messages)
  ∧ (∀ d,
       (∀ field l, field ∈ message_fields →
                   Py.dict_get d field ≠ Some (JList l)) →
       extract_messages (JDict d) = Ok [])
  ∧ (∀ d messages,
       extract_messages (JDict d) = Ok messages →
       title_source_ok messages = true →
       ∃ title, extract_conversation_title E (JDict d) = Ok title)
  ∧ (∀ v,
       Py.is_number v = true ∨ v = JNull →
       extract_messages v = Raise TypeError
       ∧ extract_conversation_title E v = Raise TypeError).
Proof.
  split; [apply extract_conversation_list_total|].
  split; [intros d; rewrite extract_messages_dict; by eexists|].
  split; [apply extract_messages_no_alias|].
  split; [apply extract_conversation_title_ok|].
  intros v [Hnum | ->]; [|by split].
  by destruct v.
Qed.

Lemma normalizer_total_on_mappings_witness :
  let E := Env (fun _ => "?") (fun _ => None) (fun _ => "?")
               (fun _ => FileNotFound) (fun _ _ => false)
               (fun _ _ _ => false) (fun d => ([d], None))
               Str.capitalize in
  let d := [("messages", JList [JDict [("text", JStr "Hi")]])] in
  (∃ title, extract_conversation_title E (JDict d) = Ok title)
  ∧ extract_messages (JDict [("messages", JInt 5)]) = Ok []
  ∧ extract_messages (JBool true) = Raise TypeError
  ∧ extract_conversation_title E (JBool true) = Raise TypeError.
Proof.
  intros E d.
  pose proof (normalizer_total_on_mappings E)
    as (_ & _ & Hnone & Htitle & Hraise).
  split.
  { apply (Htitle d [JDict [("text", JStr "Hi")]]); reflexivity. }
  split.
  { apply Hnone. intros field l _. unfold Py.dict_get.
    by destruct (String.eqb "messages" field). }
  apply (Hraise (JBool true)). by left.
Defined.

(** ** Message Formatter *)

Lemma resolve_sender_dict_total E m :
  ∃ sender, resolve_sender E (JDict m) = Ok sender.
Proof.
  unfold resolve_sender.
  destruct (first_field_dict_total Some sender_fields m) as [[v|] ->];
    by eexists.
Qed.

Lemma resolve_timestamp_dict_total m :
  ∃ timestamp, resolve_timestamp (JDict m) = Ok timestamp.
Proof. apply first_field_dict_total. Qed.

(** The parts of a list-valued text field are taken in order and joined
    with line feeds. *)
Lemma py_join_parts parts texts :
  Forall2 part_text parts texts →
  py_join Str.nl (text_parts parts) = Ok (Str.join Str.nl texts).
Proof.
  unfold py_join.
  intros H. assert (all_strings (text_parts parts) = Ok texts) as ->; [|done].
  induction H as [|part text parts texts Hpart _ IH]; [done|].
  destruct Hpart as [s|d s Hd]; simpl; rewrite ?Hd; simpl; by rewrite IH.
Qed.

Lemma resolve_text_parts m parts texts :
  first_field Some text_fields (JDict m) = Ok (Some (JList parts)) →
  Forall2 part_text parts texts →
  resolve_text (JDict m) = Ok (JStr (Str.join Str.nl texts)).
Proof.
  intros Hfield Hparts. unfold resolve_text. rewrite Hfield. simpl.
  by rewrite (py_join_parts _ _ Hparts).
Qed.

(** C8. A message mapping whose first matched text-like field holds the
    sequence of a mapping with text [a], the plain string [b] and a
    mapping with text [c] has the text block [a], [b], [c] joined by line
    feeds, and [format_message] renders that block between the sender
    line and the closing line feed. *)
Theorem format_message_text_parts (E : env) (m d1 d3 : list (string * json))
    (a b c : string)
    (Hfield : first_field Some text_fields (JDict m)
              = Ok (Some (JList [JDict d1; JStr b; JDict d3])))
    (Ha : Py.dict_get d1 "text" = Some (JStr a))
    (Hc : Py.dict_get d3 "text" = Some (JStr c)) :
  let block := a +:+ Str.nl +:+ b +:+ Str.nl +:+ c in
  resolve_text (JDict m) = Ok (JStr block)
  ∧ ∃ sender timestamp,
      resolve_sender E (JDict m) = Ok sender
      ∧ resolve_timestamp (JDict m) = Ok timestamp
      ∧ format_message E (JDict m) =
        Ok (("**" +:+ sender +:+ ":**") +:+ timestamp_annotation E timestamp
            +:+ Str.nl +:+ block +:+ Str.nl).
Proof.
  intros block.
  assert (resolve_text (JDict m) = Ok (JStr block)) as Htext.
  { apply (resolve_text_parts m _ [a; b; c] Hfield).
    repeat constructor; done. }
  split; [done|].
  destruct (resolve_sender_dict_total E m) as [sender Hs].
  destruct (resolve_timestamp_dict_total m) as [timestamp Ht].
  exists sender, timestamp. repeat split; [done..|].
  unfold format_message. rewrite Hs, Htext, Ht. simpl.
  by rewrite <-!str_app_assoc.
Qed.

Lemma format_message_text_parts_witness :
  let E := Env (fun _ => "?") (fun _ => None) (fun _ => "?")
               (fun _ => FileNotFound) (fun _ _ => false)
               (fun _ _ _ => false) (fun d => ([d], None))
               Str.capitalize in
  let m := [("role", JStr "user");
            ("content",
             JList [JDict [("text", JStr "A")]; JStr "B";
                    JDict [("text", JStr "C")]])] in
  let block := "A" +:+ Str.nl +:+ "B" +:+ Str.nl +:+ "C" in
  resolve_text (JDict m) = Ok (JStr block)
  ∧ ∃ sender timestamp,
      resolve_sender E (JDict m) = Ok sender
      ∧ resolve_timestamp (JDict m) = Ok timestamp
      ∧ format_message E (JDict m) =
        Ok (("**" +:+ sender +:+ ":**") +:+ timestamp_annotation E timestamp
            +:+ Str.nl +:+ block +:+ Str.nl).
Proof.
  intros E m.
  apply (format_message_text_parts E m [("text", JStr "A")]
           [("text", JStr "C")] "A" "B" "C"); reflexivity.
Defined.

(** Filtering the keys of a mapping keeps the lookups of the kept keys and
    empties the others. *)
Section DictFilter.

Context (P : string → Prop) `{!∀ k, Decision (P k)}.

Lemma dict_get_filter_keep (m : list (string * json)) k :
  P k → Py.dict_get (filter (λ kv, P kv.1) m) k = Py.dict_get m k.
Proof.
  intros Hk. induction m as [|[k' v] m IH]; [done|].
  rewrite filter_cons. simpl.
  destruct (String.eqb_spec k' k) as [->|Hne].
  - rewrite decide_True by done. simpl. by rewrite String.eqb_refl.
  - case_decide; simpl; [|done].
    apply String.eqb_neq in Hne. by rewrite Hne.
Qed.

Lemma dict_get_filter_drop (m : list (string * json)) k :
  ¬ P k → Py.dict_get (filter (λ kv, P kv.1) m) k = None.
Proof.
  intros Hk. induction m as [|[k' v] m IH]; [done|].
  rewrite filter_cons. simpl. case_decide; [|done]. simpl.
  destruct (String.eqb_spec k' k) as [->|Hne]; done.
Qed.

Lemma first_field_filter_keep {A} (sel : json → option A) fields m :
  Forall P fields →
  first_field sel fields (JDict (filter (λ kv, P kv.1) m))
  = first_field sel fields (JDict m).
Proof.
  induction 1 as [|field rest Hfield _ IH]; [done|].
  by rewrite !first_field_dict_cons, dict_get_filter_keep, IH.
Qed.

Lemma first_field_filter_drop {A} (sel : json → option A) fields m :
  Forall (λ k, ¬ P k) fields →
  first_field sel fields (JDict (filter (λ kv, P kv.1) m)) = Ok None.
Proof.
  induction 1 as [|field rest Hfield _ IH]; [done|].
  by rewrite first_field_dict_cons, dict_get_filter_drop, IH.
Qed.

End DictFilter.

(** C10. When the first matched timestamp-like field of a message mapping
    holds a falsy value, [format_message] renders the sender line and the
    text with no timestamp annotation, which is also what it renders for
    the same mapping without any timestamp-like field. *)
Theorem format_message_falsy_timestamp (E : env) (m : list (string * json))
    (t : json)
    (Hfield : resolve_timestamp (JDict m) = Ok (Some t))
    (Hfalsy : Py.truthy t = false) :
  format_message E (JDict m) =
    (sender <- resolve_sender E (JDict m) ;;
     text <- resolve_text (JDict m) ;;
     Ok (("**" +:+ sender +:+ ":**") +:+ Str.nl +:+ py_str E text
         +:+ Str.nl))%result
  ∧ resolve_timestamp (JDict (without_timestamp m)) = Ok None
  ∧ format_message E (JDict (without_timestamp m)) = format_message E (JDict m).
Proof.
  assert (format_message E (JDict m) =
    (sender <- resolve_sender E (JDict m) ;;
     text <- resolve_text (JDict m) ;;
     Ok (("**" +:+ sender +:+ ":**") +:+ Str.nl +:+ py_str E text
         +:+ Str.nl))%result) as Hfmt.
  { unfold format_message. rewrite Hfield.
    destruct (resolve_sender E (JDict m)) as [sender|]; [|done].
    destruct (resolve_text (JDict m)) as [text|]; [|done].
    simpl. by rewrite Hfalsy, str_app_empty_r. }
  assert (resolve_timestamp (JDict (without_timestamp m)) = Ok None) as Hnone.
  { pose proof (first_field_filter_drop (λ k, k ∉ timestamp_fields)
                  (@Some json) timestamp_fields m) as Hdrop.
    apply Hdrop, Forall_forall. intros k Hk Hn. by apply Hn. }
  split; [done|]. split; [done|].
  pose proof (first_field_filter_keep (λ k, k ∉ timestamp_fields)
                (@Some json)) as Hkeep.
  assert (resolve_sender E (JDict (without_timestamp m))
          = resolve_sender E (JDict m)) as Hsender.
  { unfold resolve_sender, without_timestamp.
    by rewrite Hkeep by (by apply (bool_decide_unpack _)). }
  assert (resolve_text (JDict (without_timestamp m))
          = resolve_text (JDict m)) as Htext.
  { unfold resolve_text, without_timestamp.
    by rewrite Hkeep by (by apply (bool_decide_unpack _)). }
  unfold format_message. rewrite Hsender, Htext, Hnone, Hfield.
  destruct (resolve_sender E (JDict m)) as [sender|]; [|done].
  destruct (resolve_text (JDict m)) as [text|]; [|done].
  simpl. by rewrite Hfalsy.
Qed.

Lemma format_message_falsy_timestamp_witness :
  let E := Env (fun _ => "?") (fun _ => Some "1970-01-01 00:00:00")
               (fun _ => "?") (fun _ => FileNotFound) (fun _ _ => false)
               (fun _ _ _ => false) (fun d => ([d], None))
               Str.capitalize in
  let m := [("role", JStr "user"); ("text", JStr "Hi");
            ("created_at", JInt 0); ("time", JStr "noon")] in
  format_message E (JDict m) =
    (sender <- resolve_sender E (JDict m) ;;
     text <- resolve_text (JDict m) ;;
     Ok (("**" +:+ sender +:+ ":**") +:+ Str.nl +:+ py_str E text
         +:+ Str.nl))%result
  ∧ resolve_timestamp (JDict (without_timestamp m)) = Ok None
  ∧ format_message E (JDict (without_timestamp m)) = format_message E (JDict m).
Proof.
  intros E m. apply (format_message_falsy_timestamp E m (JInt 0)); reflexivity.
Defined.

(** ** Paths *)

Lemma sanitize_filename_stem title stem :
  sanitize_filename (JStr title) = Ok stem → is_stem stem.
Proof.
  intros H.
  assert (stem = if String.eqb (cleaned title) "" then "Untitled"
                 else Str.take 100 (cleaned title)) as ->
    by (rewrite sanitize_filename_unfold in H; congruence).
  clear H. unfold is_stem.
  destruct (String.eqb (cleaned title) "") eqn:He.
  { split; [done|]. split; [|done]. by apply (bool_decide_unpack _). }
  apply eqb_empty_false in He. split; [|split].
  - by apply (take_nonempty 99).
  - intros Hin%elem_of_take. apply cleaned_valid in Hin.
    apply Hin. by apply (bool_decide_unpack _).
  - pose proof (take_head 99 (cleaned title)) as Htake.
    pose proof (strip_head (λ c, Str.mem c strip_chars)
      (Str.map space_to_underscore
         (Str.filter (λ c, negb (Str.mem c invalid_chars)) title))) as Hhead.
    fold (cleaned title) in Hhead.
    destruct (cleaned title) as [|c r]; [done|].
    destruct (Str.take 100 (String c r)) as [|c' r'] eqn:Ht; [done|].
    subst c'. simpl. apply bool_decide_eq_false. intros ->.
    by vm_compute in Hhead.
Qed.

Lemma path_join_relative a b :
  Str.starts_with "/" b = false → path_join a b = dir_prefix a +:+ b.
Proof.
  intros Hb. unfold path_join, dir_prefix. rewrite Hb.
  destruct (String.eqb a "" || Str.ends_with "/" a); [done|].
  by rewrite <-str_app_assoc.
Qed.

Lemma starts_with_app c s t :
  s ≠ "" → Str.starts_with c (s +:+ t) = Str.starts_with c s.
Proof. by destruct s. Qed.

Lemma stem_relative stem : is_stem stem → Str.starts_with "/" stem = false.
Proof.
  intros (Hne & Hsep & _). destruct stem as [|c r]; [done|].
  simpl. apply bool_decide_eq_false. intros ->. apply Hsep.
  rewrite chars_cons. left.
Qed.

Lemma rfind_dir_prefix a :
  Str.rfind "/" (dir_prefix a) = (Z.of_nat (String.length (dir_prefix a)) - 1)%Z.
Proof.
  assert (∀ u, Str.rfind "/" (u +:+ "/")
               = (Z.of_nat (String.length (u +:+ "/")) - 1)%Z) as Hlast.
  { intros u. rewrite rfind_last, str_length_app. simpl. lia. }
  unfold dir_prefix. destruct (String.eqb_spec a "") as [->|Hne]; [done|].
  simpl. destruct (Str.ends_with "/" a) eqn:He; [|apply Hlast].
  apply ends_with_split in He as [u ->]. apply Hlast.
Qed.

Lemma splitext_md output_dir stem :
  is_stem stem →
  splitext (path_join output_dir (stem +:+ ".md"))
  = (path_join output_dir stem, ".md").
Proof.
  intros Hstem. pose proof Hstem as (Hne & Hsep & Hdot).
  pose proof (stem_relative _ Hstem) as Hrel.
  rewrite !path_join_relative by (by rewrite ?starts_with_app).
  set (pre := dir_prefix output_dir).
  assert (Str.rfind "/" (pre +:+ stem +:+ ".md")
          = (Z.of_nat (String.length pre) - 1)%Z) as Hsepi.
  { rewrite rfind_app_l; [apply rfind_dir_prefix|].
    rewrite chars_app, elem_of_app. intros [?|Hmd]; [done|].
    revert Hmd. change ("/"%char ∉ Str.chars ".md").
    by apply (bool_decide_unpack _). }
  assert (Str.rfind "." (pre +:+ stem +:+ ".md")
          = Z.of_nat (String.length (pre +:+ stem))) as Hdoti.
  { rewrite str_app_assoc, rfind_app_r; simpl; lia. }
  unfold splitext. rewrite Hsepi, Hdoti.
  rewrite str_length_app at 1.
  destruct (Z.ltb_spec (Z.of_nat (String.length pre) - 1)
              (Z.of_nat (String.length pre + String.length stem))); [|lia].
  replace (Z.to_nat (Z.of_nat (String.length pre) - 1 + 1))
    with (String.length pre) by lia.
  rewrite Nat2Z.id, drop_app_length, str_length_app.
  replace (String.length pre + String.length stem - String.length pre)%nat
    with (String.length stem) by lia.
  rewrite take_app_length.
  assert (Str.forallb (λ c, bool_decide (c = "."%char)) stem = false) as ->.
  { destruct stem as [|c r]; [done|]. simpl in *. by rewrite Hdot. }
  rewrite <-str_length_app, str_app_assoc.
  by rewrite take_app_length, drop_app_length.
Qed.

Lemma numbered_md output_dir stem counter :
  is_stem stem →
  numbered (path_join output_dir (stem +:+ ".md")) counter
  = path_join output_dir stem +:+ "_" +:+ pretty counter +:+ ".md".
Proof. intros Hstem. unfold numbered. by rewrite splitext_md. Qed.

Lemma numbered_inj original_filename :
  Inj (=) (=) (numbered original_filename).
Proof.
  intros j k. unfold numbered.
  destruct (splitext original_filename) as [base ext].
  intros H%(inj (String.app base))%(inj (String.app "_"))%str_app_inv_tail.
  by apply (inj pretty).
Qed.

(** ** The file system and the monad of the driver *)

Lemma exists_paths p w : Fs.exists_ p w = true ↔ p ∈ paths w.
Proof.
  unfold Fs.exists_, paths.
  rewrite orb_true_iff, !bool_decide_eq_true, elem_of_app. done.
Qed.

Lemma not_exists_paths p w : Fs.exists_ p w = false ↔ p ∉ paths w.
Proof. rewrite <-exists_paths. by destruct (Fs.exists_ p w). Qed.

Lemma not_exists_files p w : Fs.exists_ p w = false → p ∉ (files w).*1.
Proof.
  rewrite not_exists_paths. unfold paths. rewrite elem_of_app. tauto.
Qed.

Section FsFacts.

Implicit Types (fs : list (string * string)) (p c chunk : string).

Lemma create_fresh p fs : p ∉ fs.*1 → Fs.create p fs = fs ++ [(p, "")].
Proof. intros H. unfold Fs.create. by rewrite bool_decide_eq_false_2. Qed.

Lemma set_content_last p c c0 fs :
  p ∉ fs.*1 → Fs.set_content p c (fs ++ [(p, c0)]) = fs ++ [(p, c)].
Proof.
  induction fs as [|[q d] fs IH]; simpl.
  - by rewrite String.eqb_refl.
  - rewrite not_elem_of_cons. intros [Hne Hfs].
    apply not_eq_sym, String.eqb_neq in Hne. by rewrite Hne, IH.
Qed.

Lemma content_last p c fs : p ∉ fs.*1 → Fs.content p (fs ++ [(p, c)]) = c.
Proof.
  induction fs as [|[q d] fs IH]; simpl.
  - by rewrite String.eqb_refl.
  - rewrite not_elem_of_cons. intros [Hne Hfs].
    apply not_eq_sym, String.eqb_neq in Hne. by rewrite Hne, IH.
Qed.

Lemma append_last p c chunk fs :
  p ∉ fs.*1 → Fs.append p chunk (fs ++ [(p, c)]) = fs ++ [(p, c +:+ chunk)].
Proof.
  intros H. unfold Fs.append. by rewrite content_last, set_content_last.
Qed.

End FsFacts.

Section MonadFacts.

Context (I : world → Prop).

Lemma preserves_ret {A} (a : A) : preserves I (ret a).
Proof. by intros w. Qed.

Lemma preserves_lift {A} (r : result A) : preserves I (lift r).
Proof. intros w. unfold lift. by destruct r. Qed.

Lemma preserves_bind {A B} (m : M A) (k : A → M B) :
  preserves I m → (∀ a, preserves I (k a)) → preserves I (bind m k).
Proof.
  intros Hm Hk w Hw. specialize (Hm w Hw). unfold bind.
  destruct (m w) as [a w'|e w']; [by apply Hk|done].
Qed.

End MonadFacts.

Lemma bind_done {A B} (m : M A) (k : A → M B) w a w' :
  m w = Done a w' → bind m k w = k a w'.
Proof. unfold bind. by intros ->. Qed.


(** ** The duplicate loop *)

Section Dedup.

Context (w : world) (original_filename : string).

Lemma dedup_loop_inv fuel md_filename counter :
  let r := dedup_loop fuel w original_filename md_filename counter in
  (r = md_filename ∧ (fuel = 0 ∨ Fs.exists_ md_filename w = false))
  ∨ (Fs.exists_ md_filename w = true
     ∧ ∃ j, counter ≤ j < counter + fuel
            ∧ r = numbered original_filename j
            ∧ (∀ j', counter ≤ j' < j → Fs.exists_ (numbered original_filename j') w = true)
            ∧ (j = counter + fuel - 1 ∨ Fs.exists_ r w = false)).
Proof.
  revert md_filename counter.
  induction fuel as [|fuel IH]; intros md_filename counter; simpl.
  { left. auto. }
  destruct (Fs.exists_ md_filename w) eqn:Hcur; [|left; auto].
  right. split; [done|].
  destruct (IH (numbered original_filename counter) (S counter))
    as [[Hr Hstop]|[Hnext (j & Hj & Hr & Hbelow & Hstop)]].
  - exists counter. rewrite Hr. repeat split; [lia..| |].
    + intros j' ?. lia.
    + destruct Hstop as [->|?]; [left; lia|by right].
  - exists j. repeat split; [lia..|done| |].
    + intros j' Hj'. destruct (decide (j' = counter)) as [->|?]; [done|].
      apply Hbelow. lia.
    + destruct Hstop as [->|?]; [left; lia|by right].
Qed.

(** More numbered names than existing paths cannot all exist. *)
Lemma numbered_pigeonhole n :
  (∀ j, 1 ≤ j < 1 + n → Fs.exists_ (numbered original_filename j) w = true) →
  n ≤ length (paths w).
Proof.
  intros Hall.
  trans (length (numbered original_filename <$> seq 1 n));
    [by rewrite length_fmap, length_seq|].
  pose proof (numbered_inj original_filename) as Hinj.
  apply submseteq_length, NoDup_submseteq.
  - apply (NoDup_fmap_2 _), NoDup_seq.
  - intros p (j & -> & Hj%elem_of_seq)%list_elem_of_fmap.
    apply exists_paths, Hall. lia.
Qed.

Lemma dedup_fuel_paths : dedup_fuel w = 2 + length (paths w).
Proof.
  unfold dedup_fuel, paths. rewrite length_app, length_fmap. lia.
Qed.

(** With [dedup_fuel] the loop stops because its condition fails: the
    name it returns is the original one, if that is unused, or the
    first Fs.exists_ numbered w = false one. *)
Lemma dedup_loop_least :
  let r := dedup_loop (dedup_fuel w) w original_filename original_filename 1 in
  Fs.exists_ r w = false
  ∧ ((Fs.exists_ original_filename w = false ∧ r = original_filename)
     ∨ (Fs.exists_ original_filename w = true
        ∧ ∃ j, 1 ≤ j ∧ r = numbered original_filename j
               ∧ ∀ j', 1 ≤ j' < j → Fs.exists_ (numbered original_filename j') w = true)).
Proof.
  intros r.
  destruct (dedup_loop_inv (dedup_fuel w) original_filename 1)
    as [[Hr Hstop]|[Horig (j & Hj & Hr & Hbelow & Hstop)]]; fold r in Hr.
  - rewrite dedup_fuel_paths in Hstop.
    destruct Hstop as [?|Hun]; [lia|].
    rewrite Hr. split; [done|]. by left.
  - assert (Fs.exists_ r w = false) as Hun.
    { destruct Hstop as [->|?]; [|done].
      rewrite dedup_fuel_paths in Hbelow.
      assert (S (length (paths w)) ≤ length (paths w)); [|lia].
      apply numbered_pigeonhole. intros j' Hj'. apply Hbelow. lia. }
    split; [done|]. right. split; [done|].
    exists j. repeat split; [lia|done..].
Qed.

(** More fuel than [dedup_fuel] changes nothing: the result is the one of
    the loop run without a bound. *)
Lemma dedup_loop_step fuel md_filename counter :
  Fs.exists_ (dedup_loop fuel w original_filename md_filename counter) w
  = false →
  dedup_loop (S fuel) w original_filename md_filename counter
  = dedup_loop fuel w original_filename md_filename counter.
Proof.
  revert md_filename counter.
  induction fuel as [|fuel IH]; intros md_filename counter Hun.
  - simpl in *. by rewrite Hun.
  - change (dedup_loop (S (S fuel)) w original_filename md_filename counter)
      with (if Fs.exists_ md_filename w
            then dedup_loop (S fuel) w original_filename
                   (numbered original_filename counter) (S counter)
            else md_filename).
    simpl in Hun. simpl (dedup_loop (S fuel) _ _ md_filename _).
    destruct (Fs.exists_ md_filename w); [|done]. by apply IH.
Qed.

Lemma dedup_loop_fuel extra :
  dedup_loop (extra + dedup_fuel w) w original_filename original_filename 1
  = dedup_loop (dedup_fuel w) w original_filename original_filename 1.
Proof.
  induction extra as [|extra IH]; [done|].
  change (S extra + dedup_fuel w) with (S (extra + dedup_fuel w)).
  rewrite dedup_loop_step; [done|].
  rewrite IH. apply dedup_loop_least.
Qed.

Lemma dedup_loop_unused :
  Fs.exists_ (dedup_loop (dedup_fuel w) w original_filename original_filename 1) w = false.
Proof. apply dedup_loop_least. Qed.

End Dedup.

(** ** Writing one transcript *)

Section Writing.

Context (E : env) (w0 : world) (p : string).
Hypothesis Hfresh : p ∉ (files w0).*1.

Lemma preserves_write i c0 chunk :
  preserves (writing w0 p c0) (write E i p chunk).
Proof.
  intros w (Hd & Ho & rest & Hf). unfold write.
  destruct (write_fails E i p _); simpl; [by repeat split; eauto|].
  repeat split; [done..|]. exists (rest +:+ chunk).
  by rewrite Hf, append_last, str_app_assoc.
Qed.

Lemma preserves_write_messages i c0 messages :
  preserves (writing w0 p c0) (write_messages E i p messages).
Proof.
  induction messages as [|message rest IH]; [apply preserves_ret|].
  simpl. apply preserves_bind; [|done].
  destruct (Py.is_dict message); [|apply preserves_ret].
  apply preserves_bind; [apply preserves_lift|].
  intros formatted. apply preserves_write.
Qed.

Lemma preserves_write_metadata i c0 conversation :
  preserves (writing w0 p c0) (write_metadata E i p conversation).
Proof.
  unfold write_metadata.
  repeat first
    [ apply preserves_write | apply preserves_ret | apply preserves_lift
    | apply preserves_bind | intros [] | intros ? ].
Qed.

Lemma preserves_transcript_body i c0 conversation title :
  preserves (writing w0 p c0) (transcript_body E i conversation title p).
Proof.
  unfold transcript_body.
  apply preserves_bind; [apply preserves_write|intros _].
  apply preserves_bind; [apply preserves_write_metadata|intros _].
  apply preserves_bind; [apply preserves_lift|intros [|m ms]].
  - apply preserves_write.
  - apply preserves_write_messages.
Qed.

(** After the heading is written, it stays at the head of the file. *)
Lemma transcript_body_heading i conversation title :
  write_fails E i p "" = false →
  writing w0 p (heading E title)
    (final (transcript_body E i conversation title p
              {| files := files w0 ++ [(p, "")]; dirs := dirs w0;
                 out := out w0 |})).
Proof.
  intros Hw. unfold transcript_body.
  erewrite bind_done; cycle 1.
  { unfold write. simpl. rewrite content_last, Hw by done.
    simpl. rewrite append_last by done. reflexivity. }
  assert (preserves (writing w0 p (heading E title))
    (write_metadata E i p conversation ;;
     messages <- lift (extract_messages conversation) ;;
     match messages with
     | [] => write E i p ("*No messages found in this conversation.*"
                          +:+ Str.nl)
     | _ :: _ => write_messages E i p messages
     end)%io) as Hrest.
  { apply preserves_bind; [apply preserves_write_metadata|intros _].
    apply preserves_bind; [apply preserves_lift|intros [|m ms]].
    - apply preserves_write.
    - apply preserves_write_messages. }
  apply Hrest. repeat split; [done..|]. exists "".
  by rewrite str_app_empty_r.
Qed.

Lemma write_transcript_open_fails i conversation title :
  open_fails E i p = true →
  write_transcript E i conversation title p w0 = Failed OSError w0.
Proof. intros H. unfold write_transcript, bind, open_w. by rewrite H. Qed.

Lemma write_transcript_opened i conversation title :
  open_fails E i p = false →
  match write_transcript E i conversation title p w0 with
  | Done _ w' =>
      dirs w' = dirs w0 ∧ out w' = out w0 ++ [success_line p]
      ∧ ∃ content, files w' = files w0 ++ [(p, content)]
  | Failed _ w' => writing w0 p "" w'
  end.
Proof.
  intros Hopen. unfold write_transcript.
  erewrite bind_done; cycle 1.
  { unfold open_w. rewrite Hopen, create_fresh by done. reflexivity. }
  pose proof (preserves_transcript_body i "" conversation title
    {| files := files w0 ++ [(p, "")]; dirs := dirs w0; out := out w0 |})
    as Hbody.
  unfold bind.
  destruct (transcript_body _ _ _ _ _ _) as [[] w1|e w1]; simpl in *.
  - destruct Hbody as (Hd & Ho & rest & Hf); [by repeat split; eexists|].
    repeat split; [done|by rewrite Ho|by eexists].
  - apply Hbody. by repeat split; eexists.
Qed.

Lemma write_transcript_heading i conversation title :
  open_fails E i p = false → write_fails E i p "" = false →
  ∃ rest, files (final (write_transcript E i conversation title p w0))
          = files w0 ++ [(p, heading E title +:+ rest)].
Proof.
  intros Hopen Hw. unfold write_transcript.
  erewrite bind_done; cycle 1.
  { unfold open_w. rewrite Hopen, create_fresh by done. reflexivity. }
  pose proof (transcript_body_heading i conversation title Hw) as Hbody.
  unfold bind.
  destruct (transcript_body _ _ _ _ _ _) as [[] w1|e w1]; simpl in *;
    by destruct Hbody as (_ & _ & Hf).
Qed.

(** A transcript without messages that is written to its end holds the
    heading, then what the metadata gave, then the notice. *)
Lemma transcript_body_no_messages i conversation title w2 :
  extract_messages conversation = Ok [] →
  transcript_body E i conversation title p
    {| files := files w0 ++ [(p, "")]; dirs := dirs w0; out := out w0 |}
  = Done tt w2 →
  ∃ mid, files w2
         = files w0 ++ [(p, heading E title +:+ mid +:+ no_messages_line)].
Proof.
  intros Hnone. unfold transcript_body, bind.
  unfold write at 1. simpl. rewrite content_last by done.
  destruct (write_fails E i p ""); [done|].
  rewrite append_last by done.
  set (wA := {| files := files w0 ++ [(p, "" +:+ _)] |}).
  pose proof (preserves_write_metadata i (heading E title) conversation wA)
    as Hmeta.
  destruct (write_metadata E i p conversation wA) as [[] wB|e wB];
    [|done].
  destruct Hmeta as (_ & _ & mid & HfB);
    [repeat split; [done..|]; exists ""; by rewrite str_app_empty_r|].
  simpl in HfB. rewrite Hnone. simpl. unfold write.
  destruct (write_fails E i p _); [done|]. intros [= <-]. simpl.
  exists mid. by rewrite HfB, append_last, <-str_app_assoc.
Qed.

Lemma write_transcript_done i conversation title w' :
  write_transcript E i conversation title p w0 = Done tt w' →
  open_fails E i p = false
  ∧ dirs w' = dirs w0
  ∧ out w' = out w0 ++ [success_line p]
  ∧ ∃ content,
      files w' = files w0 ++ [(p, content)]
      ∧ (extract_messages conversation = Ok [] →
         ∃ mid, content = heading E title +:+ mid +:+ no_messages_line).
Proof.
  unfold write_transcript.
  destruct (open_fails E i p) eqn:Hopen.
  { unfold bind, open_w. by rewrite Hopen. }
  erewrite bind_done; cycle 1.
  { unfold open_w. rewrite Hopen, create_fresh by done. reflexivity. }
  set (wA := {| files := files w0 ++ [(p, "")] |}).
  pose proof (preserves_transcript_body i "" conversation title wA) as Hinv.
  pose proof (transcript_body_no_messages i conversation title) as Hnone.
  fold wA in Hnone.
  unfold bind.
  destruct (transcript_body E i conversation title p wA) as [[] w1|e w1];
    [|done].
  unfold print. intros [= <-]. simpl.
  destruct Hinv as (Hd & Ho & rest & Hf); [by repeat split; eexists|].
  simpl in *. repeat split; [done|by rewrite Ho|].
  exists rest. split; [done|]. intros Hmsgs.
  destruct (Hnone w1 Hmsgs eq_refl) as [mid Hmid].
  exists mid. rewrite Hf in Hmid.
  apply app_inv_head in Hmid as [= Heq]. exact Heq.
Qed.

End Writing.

(** ** One conversation, and the loop over all of them *)

Section Driver.

Context (E : env) (output_dir : string).

Lemma chosen_filename_unused w stem :
  Fs.exists_ (chosen_filename w output_dir stem) w = false.
Proof. apply dedup_loop_unused. Qed.

Lemma convert_one_title_raises n i conversation w e :
  extract_conversation_title E conversation = Raise e →
  convert_one E output_dir n i conversation w = Failed e w.
Proof. intros H. unfold convert_one, bind, lift. by rewrite H. Qed.

Lemma convert_one_sanitize_raises n i conversation w title e :
  extract_conversation_title E conversation = Ok title →
  sanitize_filename (override_title n i title) = Raise e →
  convert_one E output_dir n i conversation w = Failed e w.
Proof. intros H1 H2. unfold convert_one, bind, lift. by rewrite H1, H2. Qed.

(** Once the title and the stem are there, the turn is the guarded
    block at the chosen filename. *)
Lemma convert_one_try n i conversation w title stem :
  extract_conversation_title E conversation = Ok title →
  sanitize_filename (override_title n i title) = Ok stem →
  convert_one E output_dir n i conversation w =
  try_except
    (write_transcript E i conversation (override_title n i title)
       (chosen_filename w output_dir stem))
    (λ e, print (error_line E i e)) w.
Proof.
  intros H1 H2. unfold convert_one, bind, lift. by rewrite H1, H2.
Qed.

Lemma convert_one_cases n i conversation w :
  match convert_one E output_dir n i conversation w with
  | Failed _ w' => w' = w
  | Done _ w' =>
      ∃ title stem,
        extract_conversation_title E conversation = Ok title
        ∧ sanitize_filename (override_title n i title) = Ok stem
        ∧ dirs w' = dirs w
        ∧ let p := chosen_filename w output_dir stem in
          (out w' = out w ++ [success_line p]
           ∧ open_fails E i p = false
           ∧ ∃ content, files w' = files w ++ [(p, content)])
          ∨ (∃ e, out w' = out w ++ [error_line E i e]
                  ∧ (open_fails E i p = true ∧ files w' = files w
                     ∨ open_fails E i p = false
                       ∧ ∃ content, files w' = files w ++ [(p, content)]))
  end.
Proof.
  destruct (extract_conversation_title E conversation) as [title|e] eqn:Ht;
    [|by rewrite (convert_one_title_raises _ _ _ _ _ Ht)].
  destruct (sanitize_filename (override_title n i title)) as [stem|e] eqn:Hs;
    [|by rewrite (convert_one_sanitize_raises _ _ _ _ _ _ Ht Hs)].
  rewrite (convert_one_try _ _ _ _ _ _ Ht Hs). unfold try_except.
  set (p := chosen_filename w output_dir stem).
  assert (p ∉ (files w).*1) as Hfresh
    by apply not_exists_files, chosen_filename_unused.
  destruct (open_fails E i p) eqn:Hopen.
  - rewrite write_transcript_open_fails by done. simpl.
    exists title, stem. repeat split; [done..|]. right.
    exists OSError. split; [done|]. by left.
  - pose proof (write_transcript_opened E w p Hfresh i conversation
                  (override_title n i title) Hopen) as Hbody.
    destruct (write_transcript _ _ _ _ _ _) as [[] w1|e w1]; simpl.
    + destruct Hbody as (Hd & Ho & Hf).
      exists title, stem. repeat split; [done..|]. left. by repeat split.
    + destruct Hbody as (Hd & Ho & rest & Hf).
      exists title, stem. repeat split; [done..|]. right.
      exists e. rewrite Ho. split; [done|]. right. split; [done|by eexists].
Qed.

(** Whatever happens in a turn, the files change by at most one new
    file, at a path that did not exist. *)
Lemma convert_one_files n i conversation w :
  let w' := final (convert_one E output_dir n i conversation w) in
  dirs w' = dirs w
  ∧ ∃ new, files w' = files w ++ new ∧ length new ≤ 1
           ∧ ∀ q, q ∈ new.*1 → Fs.exists_ q w = false.
Proof.
  pose proof (convert_one_cases n i conversation w) as H.
  destruct (convert_one _ _ _ _ _ _) as [[] w'|e w']; simpl.
  - destruct H as (title & stem & _ & _ & Hd & H). split; [done|].
    pose proof (chosen_filename_unused w stem) as Hun.
    destruct H as [(_ & _ & c & Hf)|(e & _ & [[_ Hf]|(_ & c & Hf)])].
    + exists [(chosen_filename w output_dir stem, c)].
      repeat split; [done|simpl; lia|]. by intros q ->%list_elem_of_singleton.
    + exists []. rewrite app_nil_r. repeat split; [done|simpl; lia|].
      by intros q ?%elem_of_nil.
    + exists [(chosen_filename w output_dir stem, c)].
      repeat split; [done|simpl; lia|]. by intros q ->%list_elem_of_singleton.
  - subst w'. split; [done|]. exists []. rewrite app_nil_r.
    repeat split; [simpl; lia|]. by intros q ?%elem_of_nil.
Qed.

Lemma convert_loop_cons n i conversation rest w :
  convert_loop E output_dir n i (conversation :: rest) w =
  match convert_one E output_dir n i conversation w with
  | Done _ w' => convert_loop E output_dir n (S i) rest w'
  | Failed e w' => Failed e w'
  end.
Proof. reflexivity. Qed.

(** The files made by the loop: new files only, each at a path of its
    own that did not exist before, at most one for each conversation. *)
Lemma convert_loop_files n conversations : ∀ i w,
  let w' := final (convert_loop E output_dir n i conversations w) in
  dirs w' = dirs w
  ∧ ∃ new, files w' = files w ++ new
           ∧ length new ≤ length conversations
           ∧ NoDup new.*1
           ∧ ∀ q, q ∈ new.*1 → Fs.exists_ q w = false.
Proof.
  induction conversations as [|conversation rest IH]; intros i w.
  { simpl. split; [done|]. exists []. rewrite app_nil_r.
    repeat split; [done|constructor|]. by intros q ?%elem_of_nil. }
  rewrite convert_loop_cons.
  pose proof (convert_one_files n i conversation w)
    as (Hd1 & new1 & Hf1 & Hlen1 & Hun1).
  destruct (convert_one _ _ _ _ _ _) as [[] w1|e w1]; simpl in *.
  - destruct (IH (S i) w1) as (Hd2 & new2 & Hf2 & Hlen2 & Hnd2 & Hun2).
    split; [congruence|]. exists (new1 ++ new2).
    assert (∀ q, q ∈ new2.*1 → (q ∉ paths w) ∧ (q ∉ new1.*1)) as Hsep.
    { intros q Hq%Hun2%not_exists_paths. unfold paths in *.
      rewrite Hf1, fmap_app, !elem_of_app in Hq.
      rewrite elem_of_app. rewrite Hd1 in Hq. tauto. }
    repeat split.
    + by rewrite Hf2, Hf1, app_assoc.
    + rewrite length_app. lia.
    + rewrite fmap_app. apply NoDup_app.
      repeat split; [|intros q Hq1 Hq2; by destruct (Hsep q Hq2)|done].
      destruct new1 as [|? [|]]; simpl in *; [constructor| |lia].
      apply NoDup_singleton.
    + intros q. rewrite fmap_app, elem_of_app. intros [?|Hq]; [auto|].
      apply not_exists_paths. by apply Hsep.
  - split; [done|]. exists new1. repeat split; [done|lia| |done].
    destruct new1 as [|? [|]]; simpl in *; [constructor| |lia].
    apply NoDup_singleton.
Qed.

(** When every file can be opened, a run that comes to its end has made
    one file for each conversation. *)
Lemma convert_loop_count n conversations : ∀ i w w',
  (∀ k q, open_fails E k q = false) →
  convert_loop E output_dir n i conversations w = Done tt w' →
  length (files w') = length (files w) + length conversations.
Proof.
  induction conversations as [|conversation rest IH]; intros i w w' Hopen.
  { intros [= <-]. simpl. lia. }
  rewrite convert_loop_cons.
  pose proof (convert_one_cases n i conversation w) as Hone.
  destruct (convert_one _ _ _ _ _ _) as [[] w1|e w1]; [|done].
  intros Hrest. rewrite (IH _ _ _ Hopen Hrest).
  destruct Hone as (title & stem & _ & _ & _ & Hone).
  destruct Hone as [(_ & _ & c & ->)|(e & _ & [[Hf _]|(_ & c & ->)])];
    rewrite ?length_app; simpl; [lia| |lia].
  by rewrite Hopen in Hf.
Qed.

Lemma convert_loop_all_created n i conversations w w' :
  (∀ k q, open_fails E k q = false) →
  convert_loop E output_dir n i conversations w = Done tt w' →
  ∃ new, files w' = files w ++ new
         ∧ length new = length conversations
         ∧ NoDup new.*1
         ∧ ∀ q, q ∈ new.*1 → Fs.exists_ q w = false.
Proof.
  intros Hopen Hrun.
  pose proof (convert_loop_count n conversations i w w' Hopen Hrun) as Hlen.
  destruct (convert_loop_files n conversations i w)
    as (_ & new & Hf & _ & Hnd & Hun).
  rewrite Hrun in Hf. simpl in Hf.
  exists new. repeat split; [done| |done..].
  rewrite Hf, length_app in Hlen. lia.
Qed.

End Driver.

(** ** Titles the sanitizer leaves as they are *)

Lemma forallb_app p s t :
  Str.forallb p (s +:+ t) = Str.forallb p s && Str.forallb p t.
Proof.
  induction s as [|a s IH]; [done|].
  rewrite str_app_cons. simpl. by rewrite IH, andb_assoc.
Qed.

Lemma cleaned_plain title :
  Str.forallb plain_char title = true → cleaned title = title.
Proof.
  intros H. unfold cleaned.
  assert (∀ c, c ∈ Str.chars title → plain_char c = true) as Hall
    by by apply forallb_chars.
  rewrite filter_id, map_id, strip_id; [done|..];
    apply forallb_chars; intros c Hc; specialize (Hall c Hc);
    unfold plain_char in Hall; apply andb_true_iff in Hall as [Hi Hs];
    [done| |done].
  apply bool_decide_eq_true. unfold space_to_underscore.
  case_bool_decide as Hsp; [|done]. subst c. by vm_compute in Hs.
Qed.

Lemma pretty_N_char_plain x : plain_char (pretty_N_char x) = true.
Proof. unfold pretty_N_char. by repeat case_match. Qed.

Lemma pretty_N_go_plain x : ∀ s,
  Str.forallb plain_char s = true →
  Str.forallb plain_char (pretty_N_go x s) = true.
Proof.
  induction (N.lt_wf_0 x) as [x _ IH]. intros s Hs.
  destruct (decide (x = 0)%N) as [->|Hx]; [by rewrite pretty_N_go_0|].
  rewrite pretty_N_go_step by lia. apply IH.
  - apply N.div_lt; lia.
  - simpl. by rewrite pretty_N_char_plain.
Qed.

Lemma pretty_nat_plain (n : nat) : Str.forallb plain_char (pretty n) = true.
Proof.
  unfold pretty, pretty_nat, pretty, pretty_N.
  case_decide; [done|]. by apply pretty_N_go_plain.
Qed.

Lemma sanitize_numbered_title i :
  sanitize_filename (JStr ("Conversation_" +:+ pretty (i + 1)))
  = Ok (Str.take 100 ("Conversation_" +:+ pretty (i + 1))).
Proof.
  rewrite sanitize_filename_unfold, cleaned_plain.
  - reflexivity.
  - rewrite forallb_app, pretty_nat_plain. reflexivity.
Qed.

Lemma sanitize_untitled n i :
  sanitize_filename (untitled_title n i) = Ok (untitled_stem n i).
Proof.
  unfold untitled_title, untitled_stem.
  destruct (1 <? n); [apply sanitize_numbered_title|reflexivity].
Qed.

Lemma override_untitled n i :
  override_title n i (JStr "Untitled_Conversation") = untitled_title n i.
Proof. reflexivity. Qed.

Lemma override_other n i title :
  title ≠ "Untitled_Conversation" →
  override_title n i (JStr title) = JStr title.
Proof.
  intros H. unfold override_title, Py.eq_str, Py.is_str.
  apply String.eqb_neq in H. by rewrite H.
Qed.

(** ** The output directory *)

(** When the output directory is ready, the driver goes on to load the
    input from the world [after_makedirs]. *)
Lemma convert_after_makedirs E json_file_path output_dir w :
  dir_ready E output_dir w = true →
  convert_conversations_to_md E json_file_path output_dir w =
  match read_json E json_file_path with
  | FileNotFound =>
      print ("Error: The file '" +:+ json_file_path +:+ "' was not found.")
  | JSONDecodeError e =>
      (print ("Error: The file '" +:+ json_file_path
              +:+ "' is not a valid JSON file.") ;;
       print ("JSON Error: " +:+ e))%io
  | OtherError e => print ("Error reading file: " +:+ e)
  | Loaded data =>
      (conversations <- lift (extract_conversation_list data) ;;
       match conversations with
       | [] => print "No conversations found in the JSON file."
       | _ :: _ =>
           print ("Found " +:+ pretty (length conversations)
                  +:+ " conversations to convert.") ;;
           convert_loop E output_dir (length conversations) 0 conversations ;;
           print (Str.nl +:+ "Conversion complete! Check the '" +:+ output_dir
                  +:+ "' directory for your markdown files.")
       end)%io
  end (after_makedirs E output_dir w).
Proof.
  unfold convert_conversations_to_md, after_makedirs, dir_ready.
  unfold bind at 1 2.
  destruct (Fs.exists_ output_dir w); [done|].
  unfold bind at 1. unfold Fs.makedirs.
  destruct (String.eqb output_dir ""); [done|].
  by destruct ((os_makedirs E output_dir).2).
Qed.

(** When it is not, [os.makedirs] raises outside every handler: the run
    ends there, before the input is looked at. *)
Lemma convert_makedirs_raises E json_file_path output_dir w :
  dir_ready E output_dir w = false →
  ∃ e,
    convert_conversations_to_md E json_file_path output_dir w
    = Failed e {| files := files w; dirs := dirs w ++ made_dirs E output_dir w;
                  out := out w |}.
Proof.
  unfold convert_conversations_to_md, made_dirs, dir_ready.
  unfold bind at 1 2.
  destruct (Fs.exists_ output_dir w); [done|].
  unfold bind at 1. unfold Fs.makedirs.
  destruct (String.eqb output_dir ""); simpl.
  { intros _. exists OSError. rewrite app_nil_r. by destruct w. }
  destruct ((os_makedirs E output_dir).2) as [e|]; [|done].
  intros _. by exists e.
Qed.

Lemma files_after_makedirs E output_dir w :
  files (after_makedirs E output_dir w) = files w.
Proof. unfold after_makedirs. by destruct (Fs.exists_ output_dir w). Qed.

Lemma dirs_after_makedirs E output_dir w :
  dir_ready E output_dir w = true →
  dirs (after_makedirs E output_dir w) = dirs w ++ made_dirs E output_dir w.
Proof.
  unfold after_makedirs, made_dirs, dir_ready.
  destruct (Fs.exists_ output_dir w); simpl; [by rewrite app_nil_r|].
  by destruct (String.eqb output_dir "").
Qed.

Lemma exists_after_makedirs E output_dir w q :
  Fs.exists_ q (after_makedirs E output_dir w) = false →
  Fs.exists_ q w = false.
Proof.
  unfold after_makedirs. destruct (Fs.exists_ output_dir w); [done|].
  rewrite !not_exists_paths. unfold paths. simpl.
  rewrite !elem_of_app. tauto.
Qed.

(** ** Error handling of the driver *)

(** What the guarded block does isolate.  When the block of conversation
    [i] fails, whether on opening the file, on a write or while a message
    is formatted, the turn ends normally: the only thing printed for the
    conversation is the error line with the 1-based index [i + 1], and the
    loop goes on with the next conversation. *)
Theorem write_failure_is_isolated (E : env) (output_dir : string) (n i : nat)
    (conversation : json) (rest : list json) (w w1 : world)
    (title : json) (stem : string) (e : exn)
    (Htitle : extract_conversation_title E conversation = Ok title)
    (Hstem : sanitize_filename (override_title n i title) = Ok stem)
    (Hfail : write_transcript E i conversation (override_title n i title)
               (chosen_filename w output_dir stem) w = Failed e w1) :
  let line := "Error processing conversation " +:+ pretty (i + 1) +:+ ": "
              +:+ exn_str E e in
  convert_one E output_dir n i conversation w = Done tt (printed line w1)
  ∧ out (printed line w1) = out w ++ [line]
  ∧ convert_loop E output_dir n i (conversation :: rest) w
    = convert_loop E output_dir n (S i) rest (printed line w1).
Proof.
  intros line.
  assert (convert_one E output_dir n i conversation w
          = Done tt (printed line w1)) as Hone.
  { rewrite (convert_one_try _ _ _ _ _ _ _ _ Htitle Hstem).
    unfold try_except. by rewrite Hfail. }
  split; [done|]. split; [|by rewrite convert_loop_cons, Hone].
  simpl. f_equal.
  set (p := chosen_filename w output_dir stem) in *.
  assert (p ∉ (files w).*1) as Hfresh
    by apply not_exists_files, chosen_filename_unused.
  destruct (open_fails E i p) eqn:Hopen.
  - rewrite write_transcript_open_fails in Hfail by done. congruence.
  - pose proof (write_transcript_opened E w p Hfresh i conversation
                  (override_title n i title) Hopen) as Hbody.
    rewrite Hfail in Hbody. by destruct Hbody as (_ & Ho & _).
Qed.

Lemma write_failure_is_isolated_witness :
  let E := sample_env JNull true in
  let line := "Error processing conversation 1: I/O error" in
  convert_one E "markdown_transcripts" 2 0 (JDict [("name", JStr "Demo")])
    empty_world = Done tt (printed line empty_world)
  ∧ out (printed line empty_world) = out empty_world ++ [line]
  ∧ convert_loop E "markdown_transcripts" 2 0
      [JDict [("name", JStr "Demo")]; JDict []] empty_world
    = convert_loop E "markdown_transcripts" 2 1 [JDict []]
        (printed line empty_world).
Proof.
  intros E line.
  apply (write_failure_is_isolated E "markdown_transcripts" 2 0
           (JDict [("name", JStr "Demo")]) [JDict []] empty_world empty_world
           (JStr "Demo") "Demo" OSError); reflexivity.
Defined.

(** C6, at the failing input.  The title of a record is resolved and
    sanitized before the guarded block.  In the batch
    [{"name": 5}, {"name": "b"}] the first title is a number, sanitizing it
    raises [TypeError], and the loop ends on that exception with nothing
    printed and nothing written: the first record is not reported, and the
    second, which the loop would convert without an error, is never
    reached. *)
Theorem title_error_aborts_batch (E : env) (output_dir : string) (w : world) :
  let bad := JDict [("name", JInt 5)] in
  let good := JDict [("name", JStr "b")] in
  extract_conversation_title E bad = Ok (JInt 5)
  ∧ sanitize_filename (override_title 2 0 (JInt 5)) = Raise TypeError
  ∧ convert_loop E output_dir 2 0 [bad; good] w = Failed TypeError w
  ∧ ∃ w', convert_loop E output_dir 2 1 [good] w = Done tt w'.
Proof.
  intros bad good. split; [reflexivity|]. split; [reflexivity|]. split.
  - rewrite convert_loop_cons.
    by rewrite (convert_one_sanitize_raises E output_dir 2 0 bad w (JInt 5)
                  TypeError).
  - rewrite convert_loop_cons.
    assert (∃ stem, sanitize_filename (override_title 2 1 (JStr "b"))
                    = Ok stem) as [stem Hstem] by (by eexists).
    rewrite (convert_one_try E output_dir 2 1 good w (JStr "b") stem);
      [|reflexivity|exact Hstem].
    unfold try_except.
    destruct (write_transcript _ _ _ _ _ _) as [ [] w1|e w1]; by eexists.
Qed.




(** ** Titles, headings and filenames *)

Lemma try_except_print_files body (line : exn → string) w :
  files (final (try_except body (λ e, print (line e)) w))
  = files (final (body w))
  ∧ dirs (final (try_except body (λ e, print (line e)) w))
    = dirs (final (body w)).
Proof. unfold try_except. by destruct (body w). Qed.

Lemma try_except_print_done body (line : exn → string) w :
  ∃ w', try_except body (λ e, print (line e)) w = Done tt w'.
Proof. unfold try_except. destruct (body w) as [[] w'|e w']; by eexists. Qed.

(** C3, counterexample.  In a run of two records without title and
    messages, the resolved title of the first is the generic fallback, its
    file is named after the overridden title, and the heading in the file
    is the overridden title too, not the fallback. *)
Lemma heading_is_overridden_title :
  let E := sample_env (JList [JDict []; JDict []]) false in
  extract_conversation_title E (JDict []) = Ok (JStr "Untitled_Conversation")
  ∧ files (final (convert_conversations_to_md E "conversations.json"
                    "markdown_transcripts" empty_world))
    = [("markdown_transcripts/Conversation_1.md",
        heading E (JStr "Conversation_1") +:+ no_messages_line);
       ("markdown_transcripts/Conversation_2.md",
        heading E (JStr "Conversation_2") +:+ no_messages_line)]
  ∧ heading E (JStr "Conversation_1")
    ≠ heading E (JStr "Untitled_Conversation").
Proof. repeat split. discriminate. Qed.

(** C3, amended.  For a conversation whose resolved title is the generic
    fallback, in a run of more than one conversation the title becomes
    [Conversation_<i+1>], and that overridden title is used both for the
    filename and for the level-1 heading at the top of the file; in a run
    of one conversation the fallback itself is used for both. *)
Theorem untitled_override (E : env) (output_dir : string) (n i : nat)
    (conversation : json) (w : world)
    (Htitle : extract_conversation_title E conversation
              = Ok (JStr "Untitled_Conversation"))
    (Hopen : open_fails E i
               (chosen_filename w output_dir (untitled_stem n i)) = false)
    (Hwrite : write_fails E i
                (chosen_filename w output_dir (untitled_stem n i)) ""
              = false) :
  let p := chosen_filename w output_dir (untitled_stem n i) in
  override_title n i (JStr "Untitled_Conversation") = untitled_title n i
  ∧ sanitize_filename (untitled_title n i) = Ok (untitled_stem n i)
  ∧ Fs.exists_ p w = false
  ∧ ∃ rest,
      files (final (convert_one E output_dir n i conversation w))
      = files w ++ [(p, heading E (untitled_title n i) +:+ rest)].
Proof.
  intros p. split; [reflexivity|]. split; [apply sanitize_untitled|].
  split; [apply chosen_filename_unused|].
  rewrite (convert_one_try E output_dir n i conversation w _ _ Htitle
             (sanitize_untitled n i)).
  rewrite (proj1 (try_except_print_files _ _ _)), override_untitled.
  apply write_transcript_heading; [|done..].
  apply not_exists_files, chosen_filename_unused.
Qed.

Lemma untitled_override_witness :
  let E := sample_env JNull false in
  let p := chosen_filename empty_world "out" (untitled_stem 2 0) in
  override_title 2 0 (JStr "Untitled_Conversation") = untitled_title 2 0
  ∧ sanitize_filename (untitled_title 2 0) = Ok (untitled_stem 2 0)
  ∧ Fs.exists_ p empty_world = false
  ∧ ∃ rest,
      files (final (convert_one E "out" 2 0 (JDict []) empty_world))
      = files empty_world ++ [(p, heading E (untitled_title 2 0) +:+ rest)].
Proof.
  intros E.
  apply (untitled_override E "out" 2 0 (JDict []) empty_world); reflexivity.
Defined.

(** ** Filenames of one run *)

Section Filenames.

Context (E : env) (output_dir : string).

Lemma path_join_md stem :
  is_stem stem →
  path_join output_dir (stem +:+ ".md") = path_join output_dir stem +:+ ".md".
Proof.
  intros Hstem. pose proof (stem_relative _ Hstem) as Hrel.
  destruct Hstem as (Hne & _).
  rewrite !path_join_relative by (by rewrite ?starts_with_app).
  apply str_app_assoc.
Qed.

(** The suffix rule: the chosen filename is the plain one when that is
    unused, and otherwise the one with the least counter, from 1 on,
    that is unused; the counter stands before the extension. *)
Lemma chosen_filename_cases w stem :
  is_stem stem →
  let original := path_join output_dir stem +:+ ".md" in
  let numbered_by k :=
    path_join output_dir stem +:+ "_" +:+ pretty k +:+ ".md" in
  let p := chosen_filename w output_dir stem in
  Fs.exists_ p w = false
  ∧ (Fs.exists_ original w = false ∧ p = original
     ∨ Fs.exists_ original w = true
       ∧ ∃ k, 1 ≤ k ∧ p = numbered_by k
              ∧ ∀ j, 1 ≤ j < k → Fs.exists_ (numbered_by j) w = true).
Proof.
  intros Hstem original numbered_by p.
  pose proof (dedup_loop_least w (path_join output_dir (stem +:+ ".md")))
    as [Hun Hcases].
  fold (chosen_filename w output_dir stem) in Hun, Hcases.
  fold p in Hun, Hcases. split; [done|].
  unfold original. rewrite <-path_join_md by done.
  destruct Hcases as [?|(Hused & k & Hk & Hp & Hbelow)]; [by left|].
  right. split; [done|]. exists k.
  rewrite numbered_md in Hp by done.
  repeat split; [done..|].
  intros j Hj. specialize (Hbelow j Hj). by rewrite numbered_md in Hbelow.
Qed.

Lemma convert_one_creates n i conversation w title stem :
  extract_conversation_title E conversation = Ok title →
  sanitize_filename (override_title n i title) = Ok stem →
  open_fails E i (chosen_filename w output_dir stem) = false →
  ∃ w' content,
    convert_one E output_dir n i conversation w = Done tt w'
    ∧ files w' = files w ++ [(chosen_filename w output_dir stem, content)]
    ∧ dirs w' = dirs w.
Proof.
  intros Ht Hs Hopen. rewrite (convert_one_try _ _ _ _ _ _ _ _ Ht Hs).
  unfold try_except.
  assert (chosen_filename w output_dir stem ∉ (files w).*1) as Hfresh
    by apply not_exists_files, chosen_filename_unused.
  pose proof (write_transcript_opened E w _ Hfresh i conversation
                (override_title n i title) Hopen) as Hbody.
  destruct (write_transcript _ _ _ _ _ _) as [[] w1|e w1].
  - destruct Hbody as (Hd & _ & content & Hf). by exists w1, content.
  - destruct Hbody as (Hd & _ & content & Hf). simpl.
    eexists _, _. split; [reflexivity|]. by split.
Qed.

Lemma same_title_twice n i c1 c2 title1 title2 title stem w :
  extract_conversation_title E c1 = Ok title1 →
  extract_conversation_title E c2 = Ok title2 →
  override_title n i title1 = JStr title →
  override_title n (S i) title2 = JStr title →
  sanitize_filename (JStr title) = Ok stem →
  Fs.exists_ (path_join output_dir stem +:+ ".md") w = false →
  Fs.exists_ (path_join output_dir stem +:+ "_1.md") w = false →
  (∀ k p, open_fails E k p = false) →
  ∃ content1 content2,
    files (final (convert_loop E output_dir n i [c1; c2] w))
    = files w ++ [(path_join output_dir stem +:+ ".md", content1);
                  (path_join output_dir stem +:+ "_1.md", content2)].
Proof.
  intros Ht1 Ht2 Ho1 Ho2 Hs Hfree0 Hfree1 Hopen.
  pose proof (sanitize_filename_stem _ _ Hs) as Hstem.
  rewrite <-Ho1 in Hs.
  destruct (convert_one_creates n i c1 w _ _ Ht1 Hs (Hopen _ _))
    as (w1 & content1 & Hrun1 & Hf1 & Hd1).
  rewrite Ho1, <-Ho2 in Hs.
  destruct (convert_one_creates n (S i) c2 w1 _ _ Ht2 Hs (Hopen _ _))
    as (w2 & content2 & Hrun2 & Hf2 & Hd2).
  rewrite convert_loop_cons, Hrun1, convert_loop_cons, Hrun2. simpl.
  exists content1, content2. rewrite Hf2, Hf1, <-app_assoc. simpl.
  destruct (chosen_filename_cases w stem Hstem)
    as (_ & [[_ Hp1]|[Hused _]]); [|congruence].
  rewrite Hp1 in *. clear Hp1.
  destruct (chosen_filename_cases w1 stem Hstem)
    as (_ & [[Hun _]|(_ & k & Hk & Hp2 & Hbelow)]).
  { apply not_exists_files in Hun. rewrite Hf1, fmap_app in Hun.
    destruct Hun. apply elem_of_app. right. simpl. left. }
  rewrite Hp2. clear Hp2.
  destruct (decide (k = 1)) as [->|Hk1]; [done|].
  assert (Fs.exists_ (path_join output_dir stem +:+ "_1.md") w1 = true)
    as Hex by (apply (Hbelow 1); lia).
  apply exists_paths in Hex. unfold paths in Hex.
  rewrite Hf1, Hd1, fmap_app, <-app_assoc in Hex. simpl in Hex.
  rewrite elem_of_app, elem_of_cons in Hex.
  apply not_exists_paths in Hfree1. unfold paths in Hfree1.
  rewrite elem_of_app in Hfree1.
  destruct Hex as [?|[Heq%(inj (String.app _))|?]]; [tauto|done|tauto].
Qed.

End Filenames.

(** C4. The files made in one run have pairwise distinct names, none of
    which existed before.  The name chosen for a sanitized title is the
    plain [title.md] when that path is unused, and otherwise the name
    with [_k] before the extension for the least [k], from 1 on, that is
    unused.  Two conversations whose titles, after the override of the
    generic fallback, are the same, converted one after the other where
    neither name exists and the files can be opened, give [title.md] and
    then [title_1.md]. *)
Theorem filenames_distinct (E : env) (output_dir : string) (n i : nat)
    (conversations : list json) (w : world) :
  (∃ new,
     files (final (convert_loop E output_dir n i conversations w))
     = files w ++ new
     ∧ NoDup new.*1
     ∧ ∀ q, q ∈ new.*1 → Fs.exists_ q w = false)
  ∧ (∀ title stem,
       sanitize_filename (JStr title) = Ok stem →
       let original := path_join output_dir stem +:+ ".md" in
       let numbered_by k :=
         path_join output_dir stem +:+ "_" +:+ pretty k +:+ ".md" in
       let p := chosen_filename w output_dir stem in
       Fs.exists_ p w = false
       ∧ (Fs.exists_ original w = false ∧ p = original
          ∨ Fs.exists_ original w = true
            ∧ ∃ k, 1 ≤ k ∧ p = numbered_by k
                   ∧ ∀ j, 1 ≤ j < k → Fs.exists_ (numbered_by j) w = true))
  ∧ (∀ c1 c2 title1 title2 title stem,
       extract_conversation_title E c1 = Ok title1 →
       extract_conversation_title E c2 = Ok title2 →
       override_title n i title1 = JStr title →
       override_title n (S i) title2 = JStr title →
       sanitize_filename (JStr title) = Ok stem →
       Fs.exists_ (path_join output_dir stem +:+ ".md") w = false →
       Fs.exists_ (path_join output_dir stem +:+ "_1.md") w = false →
       (∀ k p, open_fails E k p = false) →
       ∃ content1 content2,
         files (final (convert_loop E output_dir n i [c1; c2] w))
         = files w ++ [(path_join output_dir stem +:+ ".md", content1);
                       (path_join output_dir stem +:+ "_1.md", content2)]).
Proof.
  split; [|split].
  - destruct (convert_loop_files E output_dir n conversations i w)
      as (_ & new & Hf & _ & Hnd & Hun). by exists new.
  - intros title stem Hs. apply chosen_filename_cases.
    by eapply sanitize_filename_stem.
  - intros c1 c2 title1 title2 title stem. apply same_title_twice.
Qed.

(** ** One transcript for each conversation *)

(** C1, counterexample.  When opening the output file fails, the record
    is reported and skipped: the run over the single record ends normally
    and has written no file for it. *)
Lemma skipped_record_has_no_file :
  let E := sample_env (JList [JDict [("name", JStr "Demo")]]) true in
  convert_conversations_to_md E "conversations.json" "markdown_transcripts"
    empty_world
  = Done tt
      {| files := [];
         dirs := ["markdown_transcripts"];
         out := ["Created directory: markdown_transcripts";
                 "Found 1 conversations to convert.";
                 "Error processing conversation 1: I/O error";
                 Str.nl +:+ "Conversion complete! Check the "
                 +:+ "'markdown_transcripts' directory for your "
                 +:+ "markdown files."] |}.
Proof. reflexivity. Qed.

(** C1, amended.  For every conversation record whose turn ends without
    an uncaught error, at most one file is created, at a path that did not
    exist before.  When the record is reported as created there is exactly
    one, and for a record without messages it ends with the notice; a
    record without a recognizable title either gets the placeholder
    title.  When a failure is reported instead, there is no file if the
    file could not be opened, and one, possibly partial, otherwise.  A
    run in which every file can be opened and which comes to its end has
    made as many files as there are conversations, under distinct names. *)
Theorem one_transcript_per_record (E : env) (output_dir : string)
    (n i : nat) (conversation : json) (w w' : world)
    (Hrun : convert_one E output_dir n i conversation w = Done tt w') :
  (∃ title stem,
     extract_conversation_title E conversation = Ok title
     ∧ sanitize_filename (override_title n i title) = Ok stem
     ∧ (first_field sel_truthy title_fields conversation = Ok None →
        extract_messages conversation = Ok [] →
        title = JStr "Untitled_Conversation")
     ∧ let p := chosen_filename w output_dir stem in
       Fs.exists_ p w = false
       ∧ (out w' = out w ++ [success_line p]
          ∧ (∃ content,
               files w' = files w ++ [(p, content)]
               ∧ (extract_messages conversation = Ok [] →
                  ∃ mid, content = heading E (override_title n i title)
                                   +:+ mid +:+ no_messages_line))
          ∨ ∃ e, out w' = out w ++ [error_line E i e]
                 ∧ (open_fails E i p = true ∧ files w' = files w
                    ∨ open_fails E i p = false
                      ∧ ∃ partial, files w' = files w ++ [(p, partial)])))
  ∧ (∀ conversations j w0 w1,
       (∀ k q, open_fails E k q = false) →
       convert_loop E output_dir n j conversations w0 = Done tt w1 →
       ∃ new, files w1 = files w0 ++ new
              ∧ length new = length conversations
              ∧ NoDup new.*1
              ∧ ∀ q, q ∈ new.*1 → Fs.exists_ q w0 = false).
Proof.
  split; [|intros conversations j w0 w1; apply convert_loop_all_created].
  destruct (extract_conversation_title E conversation) as [title|e] eqn:Ht;
    [|by rewrite (convert_one_title_raises _ _ _ _ _ _ _ Ht) in Hrun].
  destruct (sanitize_filename (override_title n i title)) as [stem|e] eqn:Hs;
    [|by rewrite (convert_one_sanitize_raises _ _ _ _ _ _ _ _ Ht Hs) in Hrun].
  exists title, stem. split; [done|]. split; [done|]. split.
  { intros Hnone Hmsgs. unfold extract_conversation_title in Ht.
    rewrite Hnone in Ht. simpl in Ht. rewrite Hmsgs in Ht. simpl in Ht.
    congruence. }
  intros p. split; [apply chosen_filename_unused|].
  assert (p ∉ (files w).*1) as Hfresh
    by apply not_exists_files, chosen_filename_unused.
  rewrite (convert_one_try _ _ _ _ _ _ _ _ Ht Hs) in Hrun.
  unfold try_except in Hrun. fold p in Hrun.
  destruct (write_transcript E i conversation (override_title n i title) p w)
    as [[] w1|e w1] eqn:Hbody.
  - injection Hrun as <-. left.
    destruct (write_transcript_done E w p Hfresh _ _ _ _ Hbody)
      as (_ & _ & Ho & Hcontent).
    by split.
  - unfold print in Hrun. injection Hrun as <-. right. exists e. simpl.
    destruct (open_fails E i p) eqn:Hopen.
    + rewrite write_transcript_open_fails in Hbody by done.
      injection Hbody as <- <-. split; [done|]. by left.
    + pose proof (write_transcript_opened E w p Hfresh i conversation
                    (override_title n i title) Hopen) as Hinv.
      rewrite Hbody in Hinv. destruct Hinv as (_ & Ho & rest & Hf).
      split; [by rewrite Ho|]. right. split; [done|by eexists].
Qed.

Lemma one_transcript_per_record_witness :
  let E := sample_env JNull false in
  let w' := {| files := [("out/Untitled_Conversation.md",
                          heading E (JStr "Untitled_Conversation")
                          +:+ no_messages_line)];
               dirs := [];
               out := [success_line "out/Untitled_Conversation.md"] |} in
  ∃ title stem,
    extract_conversation_title E (JDict []) = Ok title
    ∧ sanitize_filename (override_title 1 0 title) = Ok stem
    ∧ (first_field sel_truthy title_fields (JDict []) = Ok None →
       extract_messages (JDict []) = Ok [] →
       title = JStr "Untitled_Conversation")
    ∧ let p := chosen_filename empty_world "out" stem in
      Fs.exists_ p empty_world = false
      ∧ (out w' = out empty_world ++ [success_line p]
         ∧ (∃ content,
              files w' = files empty_world ++ [(p, content)]
              ∧ (extract_messages (JDict []) = Ok [] →
                 ∃ mid, content = heading E (override_title 1 0 title)
                                  +:+ mid +:+ no_messages_line))
         ∨ ∃ e, out w' = out empty_world ++ [error_line E 0 e]
                ∧ (open_fails E 0 p = true ∧ files w' = files empty_world
                   ∨ open_fails E 0 p = false
                     ∧ ∃ partial,
                         files w' = files empty_world ++ [(p, partial)])).
Proof.
  intros E w'.
  apply (proj1 (one_transcript_per_record E "out" 1 0 (JDict []) empty_world
                  w' eq_refl)).
Defined.

Lemma filenames_distinct_witness :
  let E := sample_env JNull false in
  let demo := JDict [("name", JStr "Demo")] in
  ∃ content1 content2,
    files (final (convert_loop E "out" 2 0 [demo; demo] empty_world))
    = files empty_world ++ [(path_join "out" "Demo" +:+ ".md", content1);
                            (path_join "out" "Demo" +:+ "_1.md", content2)].
Proof.
  intros E demo.
  apply (proj2 (proj2 (filenames_distinct E "out" 2 0 [] empty_world))
           demo demo (JStr "Demo") (JStr "Demo") "Demo" "Demo"); reflexivity.
Defined.

(** ** Worked runs *)

(** The export [{"chats": [{"name": "Demo", "chat_messages": [...]}]}] gives
    one file [Demo.md] with the heading and the two message blocks, User
    first. *)
Example demo_run :
  let data :=
    JDict [("chats",
            JList [JDict [("name", JStr "Demo");
                          ("chat_messages",
                           JList [JDict [("role", JStr "user");
                                         ("text", JStr "Hi")];
                                  JDict [("role", JStr "assistant");
                                         ("text", JStr "Hello")]])]])] in
  convert_conversations_to_md (sample_env data false) "conversations.json"
    "markdown_transcripts" empty_world
  = Done tt
      {| files :=
           [("markdown_transcripts/Demo.md",
             "# Demo" +:+ Str.nl +:+ Str.nl
             +:+ "**User:**" +:+ Str.nl +:+ "Hi" +:+ Str.nl +:+ Str.nl
             +:+ "**Assistant:**" +:+ Str.nl +:+ "Hello" +:+ Str.nl
             +:+ Str.nl)];
         dirs := ["markdown_transcripts"];
         out := ["Created directory: markdown_transcripts";
                 "Found 1 conversations to convert.";
                 "Successfully created: markdown_transcripts/Demo.md";
                 Str.nl +:+ "Conversion complete! Check the "
                 +:+ "'markdown_transcripts' directory for your "
                 +:+ "markdown files."] |}.
Proof. reflexivity. Qed.

(** A single mapping without title or messages gives
    [Untitled_Conversation.md] with the notice. *)
Example bare_mapping_run :
  files (final (convert_conversations_to_md (sample_env (JDict []) false)
                  "conversations.json" "markdown_transcripts" empty_world))
  = [("markdown_transcripts/Untitled_Conversation.md",
      "# Untitled_Conversation" +:+ Str.nl +:+ Str.nl
      +:+ "*No messages found in this conversation.*" +:+ Str.nl)].
Proof. reflexivity. Qed.

(** A record whose title field holds a number is not handled: sanitizing
    the title raises outside the guarded block and the run ends there. *)
Example numeric_title_run :
  convert_loop (sample_env JNull false) "markdown_transcripts" 2 0
    [JDict [("name", JInt 5)]; JDict []] empty_world
  = Failed TypeError empty_world.
Proof. reflexivity. Qed.

Example sanitize_filename_run :
  sanitize_filename (JStr " . a:b c .. ") = Ok "_._ab_c_.._"
  ∧ sanitize_filename (JStr "a b/c.") = Ok "a_bc"
  ∧ sanitize_filename (JStr "...") = Ok "Untitled".
Proof. repeat split. Qed.

Example splitext_run :
  splitext "a/b.c/d" = ("a/b.c/d", "")
  ∧ splitext "a/b.c/.d" = ("a/b.c/.d", "")
  ∧ splitext "a/b.c/..d.e" = ("a/b.c/..d", ".e")
  ∧ splitext "out/Demo.md" = ("out/Demo", ".md").
Proof. repeat split. Qed.

(** * Further properties *)

(** ** More on the sanitizer *)

Lemma cleaned_no_space c title : c ∈ Str.chars (cleaned title) → c ≠ " "%char.
Proof.
  unfold cleaned. intros Hc%elem_of_strip.
  apply elem_of_map in Hc as (a & -> & _).
  unfold space_to_underscore. by case_bool_decide.
Qed.

Lemma length_filter_le p s :
  String.length (Str.filter p s) ≤ String.length s.
Proof. induction s as [|a s IH]; simpl; [lia|]. destruct (p a); simpl; lia. Qed.

Lemma length_map f s : String.length (Str.map f s) = String.length s.
Proof. induction s as [|a s IH]; simpl; [done|]. by rewrite IH. Qed.

Lemma length_lstrip_le p s :
  String.length (Str.lstrip p s) ≤ String.length s.
Proof. induction s as [|a s IH]; simpl; [lia|]. destruct (p a); simpl; lia. Qed.

Lemma length_chars s : length (Str.chars s) = String.length s.
Proof. induction s as [|a s IH]; [done|]. rewrite chars_cons. simpl. lia. Qed.

Lemma length_rev s : String.length (String.rev s) = String.length s.
Proof. by rewrite <-!length_chars, chars_rev, length_reverse. Qed.

Lemma length_strip_le p s : String.length (Str.strip p s) ≤ String.length s.
Proof.
  unfold Str.strip, Str.rstrip. rewrite length_rev.
  etrans; [apply length_lstrip_le|]. rewrite length_rev.
  apply length_lstrip_le.
Qed.

Lemma length_cleaned_le title :
  String.length (cleaned title) ≤ String.length title.
Proof.
  unfold cleaned. etrans; [apply length_strip_le|].
  rewrite length_map. apply length_filter_le.
Qed.

Lemma take_all n s : String.length s ≤ n → Str.take n s = s.
Proof.
  revert s. induction n as [|n IH]; intros [|a s]; simpl; try done; [lia|].
  intros H. rewrite IH; [done|lia].
Qed.

Lemma lstrip_fixed p s :
  match s with "" => True | String c _ => p c = false end →
  Str.lstrip p s = s.
Proof. destruct s as [|c r]; [done|]. simpl. by intros ->. Qed.

Lemma strip_idempotent p s : Str.strip p (Str.strip p s) = Str.strip p s.
Proof.
  assert (Str.lstrip p (Str.strip p s) = Str.strip p s) as Hl
    by apply lstrip_fixed, strip_head.
  unfold Str.strip at 1. rewrite Hl. unfold Str.strip, Str.rstrip.
  rewrite rev_involutive, (lstrip_fixed p (Str.lstrip p _)); [done|].
  apply lstrip_head.
Qed.

Lemma cleaned_idempotent title : cleaned (cleaned title) = cleaned title.
Proof.
  unfold cleaned at 1. rewrite filter_id, map_id.
  - unfold cleaned. apply strip_idempotent.
  - apply forallb_chars. intros c Hc%cleaned_no_space.
    apply bool_decide_eq_true. unfold space_to_underscore.
    by rewrite bool_decide_eq_false_2.
  - apply forallb_chars. intros c Hc%cleaned_valid.
    apply negb_true_iff. by apply bool_decide_eq_false.
Qed.

(** X1. What [sanitize_filename] returns holds no space and starts with
    neither a dot nor a space. *)
Theorem sanitize_filename_no_space (title r : string)
    (Hr : sanitize_filename (JStr title) = Ok r) :
  (" "%char ∉ Str.chars r)
  ∧ Str.starts_with "." r = false
  ∧ Str.starts_with " " r = false.
Proof.
  assert (" "%char ∉ Str.chars r) as Hsp.
  { rewrite sanitize_filename_unfold in Hr.
    assert (r = if String.eqb (cleaned title) "" then "Untitled"
                else Str.take 100 (cleaned title)) as -> by congruence.
    destruct (String.eqb (cleaned title) "").
    - by apply (bool_decide_unpack _).
    - intros Hin%elem_of_take. by apply cleaned_no_space in Hin. }
  split; [done|]. split; [by apply (sanitize_filename_stem title)|].
  destruct r as [|c r]; [done|]. simpl. apply bool_decide_eq_false.
  intros ->. apply Hsp. rewrite chars_cons. left.
Qed.

Lemma sanitize_filename_no_space_witness :
  (" "%char ∉ Str.chars "a_b")
  ∧ Str.starts_with "." "a_b" = false
  ∧ Str.starts_with " " "a_b" = false.
Proof. apply (sanitize_filename_no_space "..a b.." "a_b"). reflexivity. Defined.

(** X2. For a title of at most 100 characters, sanitizing what
    [sanitize_filename] returned gives the same name again. *)
Theorem sanitize_filename_idempotent (title r : string)
    (Hlen : String.length title ≤ 100)
    (Hr : sanitize_filename (JStr title) = Ok r) :
  sanitize_filename (JStr r) = Ok r.
Proof.
  rewrite sanitize_filename_unfold in Hr.
  assert (r = if String.eqb (cleaned title) "" then "Untitled"
              else Str.take 100 (cleaned title)) as -> by congruence.
  clear Hr. destruct (String.eqb (cleaned title) "") eqn:He; [done|].
  pose proof (length_cleaned_le title) as Hle.
  rewrite take_all by lia.
  rewrite sanitize_filename_unfold, cleaned_idempotent, He.
  by rewrite take_all by lia.
Qed.

Lemma sanitize_filename_idempotent_witness :
  sanitize_filename (JStr "a_bc") = Ok "a_bc".
Proof.
  apply (sanitize_filename_idempotent "a b/c." "a_bc"); [vm_compute; lia|].
  reflexivity.
Defined.

(** Beyond 100 characters the cut can leave a dot at the end, which a
    second pass strips. *)
Example sanitize_filename_long_title :
  let title := "aaaaaaaaaaaaaaaaaaaaaaaaaaaaaaaaaaaaaaaaaaaaaaaaaa"
               +:+ "aaaaaaaaaaaaaaaaaaaaaaaaaaaaaaaaaaaaaaaaaaaaaaaaa.b" in
  ∃ r r', sanitize_filename (JStr title) = Ok r
          ∧ sanitize_filename (JStr r) = Ok r' ∧ r ≠ r'.
Proof. eexists _, _. repeat split. discriminate. Qed.

(** ** More on the normalizer *)

Section FirstField.

Context {A : Type} (sel : json → option A) (d : list (string * json)).

(** A field passes when it is absent or its value is not selected. *)
Lemma first_field_dict_skip before rest :
  Forall (λ k, ∀ v, Py.dict_get d k = Some v → sel v = None) before →
  first_field sel (before ++ rest) (JDict d) = first_field sel rest (JDict d).
Proof.
  induction 1 as [|k before Hk _ IH]; [done|].
  rewrite <-app_comm_cons, first_field_dict_cons, IH.
  destruct (Py.dict_get d k) as [v|] eqn:Hv; [|done].
  by rewrite (Hk v eq_refl).
Qed.

Lemma first_field_dict_hit before key after v a :
  Forall (λ k, ∀ v, Py.dict_get d k = Some v → sel v = None) before →
  Py.dict_get d key = Some v → sel v = Some a →
  first_field sel (before ++ key :: after) (JDict d) = Ok (Some a).
Proof.
  intros Hbefore Hv Ha.
  by rewrite first_field_dict_skip, first_field_dict_cons, Hv, Ha.
Qed.

Lemma first_field_dict_miss fields :
  Forall (λ k, ∀ v, Py.dict_get d k = Some v → sel v = None) fields →
  first_field sel fields (JDict d) = Ok None.
Proof.
  intros H. rewrite <-(app_nil_r fields). by rewrite first_field_dict_skip.
Qed.

End FirstField.

(** X3. The conversation list of a mapping root is never empty.  The
    first wrapper key, in the order conversations, chats, data, items,
    that holds a sequence decides: the sequence itself when it is not
    empty, and otherwise, as when no wrapper key holds a sequence, the
    root alone, even if a later wrapper key holds conversations. *)
Theorem extract_conversation_list_mapping (d : list (string * json)) :
  (∃ cs, extract_conversation_list (JDict d) = Ok cs ∧ cs ≠ [])
  ∧ (∀ before key after l,
       wrapper_keys = before ++ key :: after →
       Forall (λ k, ∀ l', Py.dict_get d k ≠ Some (JList l')) before →
       Py.dict_get d key = Some (JList l) →
       extract_conversation_list (JDict d)
       = Ok (match l with [] => [JDict d] | _ :: _ => l end))
  ∧ (Forall (λ k, ∀ l', Py.dict_get d k ≠ Some (JList l')) wrapper_keys →
     extract_conversation_list (JDict d) = Ok [JDict d]).
Proof.
  assert (∀ ks : list string,
    Forall (λ k, ∀ l', Py.dict_get d k ≠ Some (JList l')) ks →
    Forall (λ k, ∀ v, Py.dict_get d k = Some v → sel_list v = None) ks)
    as Hsel.
  { intros ks Hks. eapply Forall_impl; [exact Hks|]. intros k Hk v Hv.
    destruct v; try done. by destruct (Hk l). }
  split; [|split].
  - unfold extract_conversation_list.
    destruct (first_field_dict_total sel_list wrapper_keys d) as [r ->].
    simpl. destruct r as [[|c cs]|]; by eexists.
  - intros before key after l Hkeys Hbefore Hkey.
    unfold extract_conversation_list. rewrite Hkeys.
    rewrite (first_field_dict_hit sel_list d before key after (JList l) l);
      [by destruct l|by apply Hsel|done..].
  - intros Hnone. unfold extract_conversation_list.
    by rewrite (first_field_dict_miss sel_list d _ (Hsel _ Hnone)).
Qed.

Lemma extract_conversation_list_mapping_witness :
  let d := [("conversations", JList []); ("chats", JList [JDict []])] in
  extract_conversation_list (JDict d) = Ok [JDict d].
Proof.
  intros d.
  apply (proj1 (proj2 (extract_conversation_list_mapping d))
           [] "conversations" ["chats"; "data"; "items"] []);
    [reflexivity|constructor|reflexivity].
Defined.

(** X4. Without a non-empty title field, the title of a mapping comes
    from its first message when that is a mapping: [Conversation_] and
    the first 50 characters of its text, or of its content when it has no
    text key.  An empty text gives the generic fallback, whatever the
    content holds. *)
Theorem title_from_first_message (E : env) (d m0 : list (string * json))
    (rest : list json) (s : string)
    (Hnone : first_field sel_truthy title_fields (JDict d) = Ok None)
    (Hmsgs : extract_messages (JDict d) = Ok (JDict m0 :: rest))
    (Hsrc : Py.dict_get m0 "text" = Some (JStr s)
            ∨ Py.dict_get m0 "text" = None
              ∧ Py.dict_get m0 "content" = Some (JStr s)) :
  extract_conversation_title E (JDict d)
  = Ok (JStr (if String.eqb s "" then "Untitled_Conversation"
              else "Conversation_" +:+ Str.take 50 s)).
Proof.
  unfold extract_conversation_title. rewrite Hnone. cbn [rbind].
  rewrite Hmsgs. cbn [rbind py_get].
  assert (default (default (JStr "") (Py.dict_get m0 "content"))
            (Py.dict_get m0 "text") = JStr s) as ->.
  { destruct Hsrc as [-> | [-> ->] ]; done. }
  cbn [py_slice_to rbind]. by destruct s.
Qed.

Lemma title_from_first_message_witness :
  let d := [("name", JStr "");
            ("messages", JList [JDict [("text", JStr "");
                                       ("content", JStr "Hello")]])] in
  extract_conversation_title (sample_env JNull false) (JDict d)
  = Ok (JStr (if String.eqb "" "" then "Untitled_Conversation"
              else "Conversation_" +:+ Str.take 50 "")).
Proof.
  intros d.
  apply (title_from_first_message (sample_env JNull false) d
           [("text", JStr ""); ("content", JStr "Hello")] [] "");
    [reflexivity|reflexivity|by left].
Defined.

(** ** More on the formatter *)

Lemma all_strings_cases parts :
  (∃ ss, all_strings parts = Ok ss)
  ∨ all_strings parts = Raise TypeError.
Proof.
  induction parts as [|part parts IH]; [left; by eexists|].
  destruct part; simpl; try by right.
  destruct IH as [ [ss ->] | -> ]; [left; by eexists|by right].
Qed.

Lemma all_strings_raise parts :
  all_strings parts = Raise TypeError
  ↔ ∃ part, part ∈ parts ∧ Py.is_string part = false.
Proof.
  induction parts as [|part parts IH]; simpl.
  { split; [done|]. by intros (? & ?%elem_of_nil & _). }
  destruct part; simpl;
    try by (split; [intros _; eexists; split; [left|done]|done]).
  destruct (all_strings_cases parts) as [[ss Hss]|Hraise]; rewrite ?Hss, ?Hraise.
  - simpl. split; [done|]. intros (part & [->|Hin]%elem_of_cons & Hns); [done|].
    rewrite Hss in IH. assert (Ok ss = Raise TypeError) as ?; [|done].
    apply IH. eauto.
  - simpl. split; [|done]. intros _.
    destruct (proj1 IH Hraise) as (part & Hin & Hns).
    exists part. split; [by right|done].
Qed.

(** X5. On a mapping, [format_message] raises only in one way: the first
    matched text-like field is a sequence with a part that contributes
    something other than a string (a mapping whose text is not a string);
    then, and only then, it raises [TypeError]. *)
Theorem format_message_raises (E : env) (m : list (string * json)) (e : exn) :
  format_message E (JDict m) = Raise e
  ↔ e = TypeError
    ∧ ∃ parts part,
        first_field Some text_fields (JDict m) = Ok (Some (JList parts))
        ∧ part ∈ text_parts parts
        ∧ Py.is_string part = false.
Proof.
  unfold format_message.
  destruct (resolve_sender_dict_total E m) as [sender ->].
  destruct (resolve_timestamp_dict_total m) as [timestamp ->].
  unfold resolve_text.
  destruct (first_field_dict_total Some text_fields m) as [found ->].
  cbn [rbind].
  destruct found as [[| | | | |parts|d']|]; cbn [rbind];
    try (split; [done|by intros (_ & ? & ? & [=] & _)]).
  - unfold py_join.
    destruct (all_strings_cases (text_parts parts)) as [[ss Hss]|Hraise].
    + rewrite Hss. cbn [rbind]. split; [done|].
      intros (_ & parts' & part & [= <-] & Hin & Hns).
      assert (all_strings (text_parts parts) = Raise TypeError) as Hr
        by (apply all_strings_raise; eauto).
      congruence.
    + rewrite Hraise. cbn [rbind]. split.
      * intros [= <-]. split; [done|].
        apply all_strings_raise in Hraise as (part & Hin & Hns).
        by exists parts, part.
      * by intros [-> _].
  - destruct (Py.dict_get d' "text"); cbn [rbind];
      (split; [done|by intros (_ & ? & ? & [=] & _)]).
Qed.

Lemma format_message_raises_witness :
  format_message (sample_env JNull false)
    (JDict [("content", JList [JDict [("text", JInt 5)]])])
  = Raise TypeError.
Proof.
  apply format_message_raises. split; [done|].
  exists [JDict [("text", JInt 5)]], (JInt 5).
  repeat split. left.
Defined.

(** Without an annotation, a message renders as it does without its
    timestamp-like fields. *)
Lemma format_message_no_annotation E m timestamp :
  resolve_timestamp (JDict m) = Ok timestamp →
  timestamp_annotation E timestamp = "" →
  format_message E (JDict (without_timestamp m)) = format_message E (JDict m).
Proof.
  intros Hfield Hann.
  pose proof (first_field_filter_keep (λ k, k ∉ timestamp_fields)
                (@Some json)) as Hkeep.
  pose proof (first_field_filter_drop (λ k, k ∉ timestamp_fields)
                (@Some json) timestamp_fields m) as Hdrop.
  assert (resolve_timestamp (JDict (without_timestamp m)) = Ok None) as Hnone.
  { apply Hdrop, Forall_forall. intros k Hk Hn. by apply Hn. }
  assert (resolve_sender E (JDict (without_timestamp m))
          = resolve_sender E (JDict m)) as Hsender.
  { unfold resolve_sender, without_timestamp.
    by rewrite Hkeep by (by apply (bool_decide_unpack _)). }
  assert (resolve_text (JDict (without_timestamp m))
          = resolve_text (JDict m)) as Htext.
  { unfold resolve_text, without_timestamp.
    by rewrite Hkeep by (by apply (bool_decide_unpack _)). }
  unfold format_message. rewrite Hsender, Htext, Hnone, Hfield.
  destruct (resolve_sender E (JDict m)) as [sender|]; [|done].
  destruct (resolve_text (JDict m)) as [text|]; [|done].
  cbn [rbind]. by rewrite Hann.
Qed.

(** X6. A numeric timestamp whose date cannot be rendered is dropped
    without an error: the message renders as it does without any
    timestamp-like field. *)
Theorem format_message_unrenderable_timestamp (E : env)
    (m : list (string * json)) (t : json)
    (Hfield : resolve_timestamp (JDict m) = Ok (Some t))
    (Hnum : Py.is_number t = true)
    (Hdate : strftime_local E t = None) :
  format_message E (JDict (without_timestamp m)) = format_message E (JDict m).
Proof.
  apply (format_message_no_annotation E m (Some t) Hfield).
  unfold timestamp_annotation. rewrite Hnum, Hdate. by destruct (Py.truthy t).
Qed.

Lemma format_message_unrenderable_timestamp_witness :
  let E := sample_env JNull false in
  let m := [("role", JStr "user"); ("text", JStr "Hi");
            ("timestamp", JInt (10 ^ 30))] in
  format_message E (JDict (without_timestamp m)) = format_message E (JDict m).
Proof.
  intros E m.
  apply (format_message_unrenderable_timestamp E m (JInt (10 ^ 30)));
    reflexivity.
Defined.

(** ** More on the driver *)

(** X7. When the output directory is ready and the root of the input is
    an empty sequence, or neither a sequence nor a mapping, the driver
    reports that no conversations were found and returns: no file is
    written and the loop is not entered. *)
Theorem no_conversations_found (E : env) (json_file_path output_dir : string)
    (w : world) (data : json)
    (Hdir : dir_ready E output_dir w = true)
    (Hload : read_json E json_file_path = Loaded data)
    (Hroot : data = JList []
             ∨ Py.is_list data = false ∧ Py.is_dict data = false) :
  convert_conversations_to_md E json_file_path output_dir w
  = Done tt (printed "No conversations found in the JSON file."
               (after_makedirs E output_dir w))
  ∧ files (after_makedirs E output_dir w) = files w.
Proof.
  split; [|apply files_after_makedirs].
  rewrite (convert_after_makedirs _ _ _ _ Hdir), Hload.
  by destruct Hroot as [-> | [Hl Hd] ]; [|destruct data].
Qed.

Lemma no_conversations_found_witness :
  let E := sample_env (JStr "hello") false in
  convert_conversations_to_md E "conversations.json" "out" empty_world
  = Done tt (printed "No conversations found in the JSON file."
               (after_makedirs E "out" empty_world))
  ∧ files (after_makedirs E "out" empty_world) = files empty_world.
Proof.
  intros E.
  apply (no_conversations_found E "conversations.json" "out" empty_world
           (JStr "hello")); [reflexivity..|].
  right. by split.
Defined.

Lemma final_then_print {A} (m : M A) line w :
  files (final (bind m (λ _, print line) w)) = files (final (m w))
  ∧ dirs (final (bind m (λ _, print line) w)) = dirs (final (m w)).
Proof. unfold bind. by destruct (m w). Qed.

(** X8. Whatever the input holds and whatever fails, also when the run
    ends on an uncaught error, the driver leaves every file and directory
    that was there as it was: the files afterwards are the old ones
    followed by new ones, under distinct names that did not exist before,
    and the directories are the old ones followed by those that
    [os.makedirs] made for the output directory, none when it existed. *)
Theorem existing_files_untouched (E : env) (json_file_path output_dir : string)
    (w : world) :
  let w' := final (convert_conversations_to_md E json_file_path output_dir w) in
  dirs w' = dirs w ++ made_dirs E output_dir w
  ∧ (Fs.exists_ output_dir w = true → dirs w' = dirs w)
  ∧ ∃ new, files w' = files w ++ new
           ∧ NoDup new.*1
           ∧ ∀ q, q ∈ new.*1 → Fs.exists_ q w = false.
Proof.
  intros w'. subst w'.
  assert (Fs.exists_ output_dir w = true →
          dirs w ++ made_dirs E output_dir w = dirs w) as Hthere.
  { intros Hex. unfold made_dirs. rewrite Hex. apply app_nil_r. }
  assert (∀ w1, files w1 = files w →
            dirs w1 = dirs w ++ made_dirs E output_dir w →
            dirs w1 = dirs w ++ made_dirs E output_dir w
            ∧ (Fs.exists_ output_dir w = true → dirs w1 = dirs w)
            ∧ ∃ new, files w1 = files w ++ new ∧ NoDup new.*1
                     ∧ ∀ q, q ∈ new.*1 → Fs.exists_ q w = false) as Hsame.
  { intros w1 Hf Hd. split; [done|].
    split; [intros Hex; by rewrite Hd, Hthere|].
    exists []. rewrite app_nil_r, Hf.
    repeat split; [constructor|]. by intros q ?%elem_of_nil. }
  destruct (dir_ready E output_dir w) eqn:Hdir.
  2: { destruct (convert_makedirs_raises E json_file_path output_dir w Hdir)
         as [e ->].
       by apply Hsame. }
  rewrite (convert_after_makedirs _ _ _ _ Hdir).
  pose proof (files_after_makedirs E output_dir w) as Hfiles.
  pose proof (dirs_after_makedirs E output_dir w Hdir) as Hdirs.
  set (w0 := after_makedirs E output_dir w) in *.
  destruct (read_json E json_file_path) as [|msg|msg|data];
    try by (apply Hsame).
  destruct (extract_conversation_list_total data) as [cs Hcs].
  erewrite bind_done; [|unfold lift; rewrite Hcs; reflexivity].
  destruct cs as [|c cs]; [by apply Hsame|].
  cbv beta iota.
  erewrite bind_done; [|reflexivity].
  rewrite (proj1 (final_then_print _ _ _)), (proj2 (final_then_print _ _ _)).
  match goal with
  | |- context [convert_loop ?E' ?dir ?n ?i ?convs ?w1] =>
      destruct (convert_loop_files E' dir n convs i w1)
        as (Hd & new & Hf & _ & Hnd & Hun)
  end.
  cbv zeta in Hd.
  split; [rewrite Hd; exact Hdirs|].
  split; [intros Hex; rewrite Hd; etrans; [exact Hdirs|by apply Hthere]|].
  exists new. rewrite Hf. simpl. rewrite Hfiles.
  repeat split; [done|].
  intros q Hq. apply (exists_after_makedirs E output_dir).
  specialize (Hun q Hq). apply not_exists_paths.
  apply not_exists_paths in Hun. exact Hun.
Qed.

(** X9. When the loop over the conversations comes to its end, it has
    printed one line for each conversation, in their order: either the
    success line, naming a file that is there afterwards, or the error line
    with the 1-based index of the conversation. *)
Theorem every_conversation_reported (E : env) (output_dir : string)
    (n : nat) (conversations : list json) :
  ∀ (i : nat) (w w' : world),
    convert_loop E output_dir n i conversations w = Done tt w' →
    ∃ lines,
      out w' = out w ++ lines
      ∧ length lines = length conversations
      ∧ ∀ k line,
          lines !! k = Some line →
          (∃ p, line = success_line p ∧ p ∈ (files w').*1)
          ∨ ∃ e, line = error_line E (i + k) e.
Proof.
  induction conversations as [|conversation rest IH]; intros i w w'.
  { intros [= <-]. exists []. rewrite app_nil_r. by repeat split. }
  rewrite convert_loop_cons.
  pose proof (convert_one_cases E output_dir n i conversation w) as Hone.
  destruct (convert_one _ _ _ _ _ _) as [ [] w1|e w1]; [|done].
  intros Hrest. destruct (IH _ _ _ Hrest) as (lines & Ho & Hlen & Hlines).
  destruct (convert_loop_files E output_dir n rest (S i) w1)
    as (_ & new & Hf & _).
  rewrite Hrest in Hf. simpl in Hf.
  destruct Hone as (title & stem & _ & _ & _ & Hone).
  assert (∃ line, out w1 = out w ++ [line]
                  ∧ ((∃ p, line = success_line p ∧ p ∈ (files w').*1)
                     ∨ ∃ e, line = error_line E (i + 0) e))
    as (line & Ho1 & Hline).
  { destruct Hone as [(Ho1 & _ & c & Hf1)|(e & Ho1 & _)].
    - eexists. split; [done|]. left. eexists. split; [done|].
      rewrite Hf, Hf1, !fmap_app, !elem_of_app. left. right. simpl. left.
    - eexists. split; [done|]. right. exists e. by rewrite Nat.add_0_r. }
  exists (line :: lines). repeat split.
  - by rewrite Ho, Ho1, <-app_assoc.
  - simpl. by rewrite Hlen.
  - intros [|k] l; simpl.
    + by intros [= <-].
    + intros Hl. destruct (Hlines k l Hl) as [?|[e He] ]; [by left|].
      right. exists e. by rewrite <-Nat.add_succ_comm.
Qed.

Lemma every_conversation_reported_witness :
  let E := sample_env JNull false in
  let w' := final (convert_loop E "out" 2 0 [JDict []; JDict []] empty_world) in
  ∃ lines,
    out w' = out empty_world ++ lines
    ∧ length lines = length [JDict []; JDict []]
    ∧ ∀ k line,
        lines !! k = Some line →
        (∃ p, line = success_line p ∧ p ∈ (files w').*1)
        ∨ ∃ e, line = error_line E (0 + k) e.
Proof.
  intros E w'.
  apply (every_conversation_reported E "out" 2 [JDict []; JDict []] 0
           empty_world w').
  reflexivity.
Defined.

(** ** The text that is written *)





Section WrittenText.

Context (E : env) (w0 : world) (p : string) (i : nat).
Hypothesis Hfresh : p ∉ (files w0).*1.
Hypothesis Hwrite : ∀ c, write_fails E i p c = false.







End WrittenText.







(** ** The structure analyzer *)

Lemma length_flat_map_le {A B} (f : A → list B) (l : list A) (m : nat) :
  (∀ x, x ∈ l → length (f x) ≤ m) → length (flat_map f l) ≤ length l * m.
Proof.
  induction l as [|x l IH]; intros H; simpl; [lia|].
  rewrite length_app.
  pose proof (H x ltac:(left)) as Hx.
  assert (length (flat_map f l) ≤ length l * m) as Hl
    by (apply IH; intros y Hy; apply H; by right).
  lia.
Qed.

Lemma flat_map_ext_in {A B} (f g : A → list B) (l : list A) :
  (∀ x, x ∈ l → f x = g x) → flat_map f l = flat_map g l.
Proof.
  induction l as [|x l IH]; intros H; simpl; [done|].
  rewrite (H x ltac:(left)), IH; [done|]. intros y Hy. apply H. by right.
Qed.

Lemma levels_left_step indent :
  indent ≤ 6 → levels_left indent = S (levels_left (indent + 2)).
Proof.
  unfold levels_left. intros H.
  replace (8 - indent) with ((8 - (indent + 2)) + 1 * 2) by lia.
  rewrite Nat.div_add by lia. lia.
Qed.

Lemma levels_left_deep indent : 6 < indent → levels_left indent = 0.
Proof.
  unfold levels_left. intros H. apply Nat.div_small. lia.
Qed.

Lemma levels_left_le indent : levels_left indent ≤ 4.
Proof.
  unfold levels_left.
  trans (8 / 2); [apply Nat.Div0.div_le_mono; lia|done].
Qed.

Lemma structure_bound_mono a b : a ≤ b → structure_bound a ≤ structure_bound b.
Proof.
  induction 1 as [|b _ IH]; [done|]. simpl. lia.
Qed.

(** Below the first level the depth is the default one, and the output is
    bounded by the levels left. *)
Lemma print_structure_fuel_bound fuel : ∀ obj indent,
  length (print_structure_fuel fuel obj indent 3)
  ≤ structure_bound (levels_left indent).
Proof.
  induction fuel as [|fuel IH]; intros obj indent; simpl; [lia|].
  destruct (Nat.ltb_spec 6 indent) as [Hdeep|Hin]; [simpl; lia|].
  rewrite (levels_left_step indent Hin). cbn [structure_bound].
  set (b := structure_bound (levels_left (indent + 2))).
  destruct obj as [| | | | |l|d]; simpl; try lia.
  - destruct l as [|first l]; simpl; [lia|].
    destruct (Py.is_dict first || Py.is_list first); simpl; [|lia].
    specialize (IH first (indent + 2)). fold b in IH. lia.
  - etrans; [apply (length_flat_map_le _ _ (1 + b))|].
    + intros kv _. simpl.
      destruct (Py.is_dict kv.2 || Py.is_list kv.2); simpl; [|lia].
      specialize (IH kv.2 (indent + 2)). fold b in IH. lia.
    + assert (length (take 5 (dict_items d)) ≤ 5) as Hfive
        by (rewrite list.length_take; lia).
      nia.
Qed.

Lemma print_structure_fuel_same f1 : ∀ f2 obj indent,
  levels_left indent ≤ f1 → levels_left indent ≤ f2 →
  print_structure_fuel f1 obj indent 3 = print_structure_fuel f2 obj indent 3.
Proof.
  induction f1 as [|f1 IH]; intros [|f2] obj indent H1 H2; simpl; try done.
  - destruct (Nat.ltb_spec 6 indent) as [Hdeep|Hin]; [done|].
    rewrite (levels_left_step indent Hin) in H1. lia.
  - destruct (Nat.ltb_spec 6 indent) as [Hdeep|Hin]; [done|].
    rewrite (levels_left_step indent Hin) in H2. lia.
  - destruct (Nat.ltb_spec 6 indent) as [Hdeep|Hin]; [done|].
    rewrite (levels_left_step indent Hin) in H1, H2.
    assert (∀ v, print_structure_fuel f1 v (indent + 2) 3
                 = print_structure_fuel f2 v (indent + 2) 3) as Hsub
      by (intros v; apply IH; lia).
    destruct obj as [| | | | |l|d]; try done.
    + destruct l as [|first l]; [done|]. by rewrite Hsub.
    + apply flat_map_ext_in. intros kv _. by rewrite Hsub.
Qed.

Lemma print_structure_fuel_nested (fuel : nat) (obj : json) (indent : nat) :
  2 ≤ indent → length (print_structure_fuel fuel obj indent 3) ≤ 155.
Proof.
  intros Hindent.
  etrans; [apply print_structure_fuel_bound|].
  apply (structure_bound_mono _ 3).
  unfold levels_left.
  trans (6 / 2); [apply Nat.Div0.div_le_mono; lia|done].
Qed.

Lemma print_structure_fuel_step (fuel : nat) (obj : json)
    (indent max_depth : nat) :
  print_structure_fuel (S fuel) obj indent max_depth
  = if max_depth * 2 <? indent then []
    else match obj with
         | JDict d =>
             flat_map
               (λ kv, (spaces indent +:+ kv.1 +:+ ": " +:+ type_name kv.2)
                      :: (if Py.is_dict kv.2 || Py.is_list kv.2
                          then print_structure_fuel fuel kv.2 (indent + 2) 3
                          else []))
               (take 5 (dict_items d))
         | JList (first :: _) =>
             (spaces indent +:+ "[0]: " +:+ type_name first)
             :: (if Py.is_dict first || Py.is_list first
                 then print_structure_fuel fuel first (indent + 2) 3
                 else [])
         | _ => []
         end.
Proof. reflexivity. Qed.

(** X12. Whatever the value, the indentation and the depth,
    [print_structure] prints at most 780 lines, at most 155 when it starts
    from an indentation of 2 or more under the default depth as the
    analyzer calls it, and nothing when the indentation is beyond twice the
    depth.  Five nested calls are all it ever makes: more fuel changes
    nothing. *)
Theorem print_structure_bounded (obj : json) (indent max_depth : nat) :
  length (print_structure obj indent max_depth) ≤ 780
  ∧ (2 ≤ indent → length (print_structure obj indent 3) ≤ 155)
  ∧ (max_depth * 2 < indent → print_structure obj indent max_depth = [])
  ∧ (∀ fuel, 5 ≤ fuel →
       print_structure_fuel fuel obj indent max_depth
       = print_structure obj indent max_depth).
Proof.
  assert (∀ v, length (print_structure_fuel 4 v (indent + 2) 3) ≤ 155)
    as Hsub.
  { intros v. apply print_structure_fuel_nested. lia. }
  repeat split.
  - unfold print_structure. rewrite (print_structure_fuel_step 4).
    destruct (max_depth * 2 <? indent); [simpl; clear Hsub; lia|].
    destruct obj as [| | | | |l|d]; try (simpl; clear Hsub; lia).
    + destruct l as [|first l]; [simpl; clear Hsub; lia|].
      specialize (Hsub first).
      set (sub := print_structure_fuel 4 first (indent + 2) 3) in *.
      clearbody sub.
      destruct (Py.is_dict first || Py.is_list first); cbn [length]; lia.
    + etrans; [apply (length_flat_map_le _ _ 156)|].
      * intros kv _. specialize (Hsub kv.2).
        set (sub := print_structure_fuel 4 kv.2 (indent + 2) 3) in *.
        clearbody sub.
        destruct (Py.is_dict kv.2 || Py.is_list kv.2); cbn [length]; lia.
      * rewrite list.length_take. clear Hsub. lia.
  - intros Hindent. by apply print_structure_fuel_nested.
  - intros Hdeep. unfold print_structure. cbn [print_structure_fuel].
    by destruct (Nat.ltb_spec (max_depth * 2) indent); [|lia].
  - intros fuel Hfuel. unfold print_structure.
    destruct fuel as [|fuel]; [lia|]. cbn [print_structure_fuel].
    destruct (max_depth * 2 <? indent); [done|].
    assert (∀ v, print_structure_fuel fuel v (indent + 2) 3
                 = print_structure_fuel 4 v (indent + 2) 3) as Hsame.
    { intros v. apply print_structure_fuel_same.
      - unfold levels_left.
        trans (6 / 2); [apply Nat.Div0.div_le_mono; lia|simpl; lia].
      - unfold levels_left.
        trans (6 / 2); [apply Nat.Div0.div_le_mono; lia|simpl; lia]. }
    destruct obj as [| | | | |l|d]; try done.
    + destruct l as [|first l]; [done|]. by rewrite Hsame.
    + apply flat_map_ext_in. intros kv _. by rewrite Hsame.
Qed.

Lemma print_structure_bounded_witness :
  length (print_structure (JList [JDict [("a", JList [JInt 1])]]) 2 3) ≤ 155.
Proof.
  apply (proj1 (proj2 (print_structure_bounded
                         (JList [JDict [("a", JList [JInt 1])]]) 2 3))).
  lia.
Defined.

Lemma print_all_spec lines w :
  print_all lines w
  = Done tt {| files := files w; dirs := dirs w; out := out w ++ lines |}.
Proof.
  revert w. induction lines as [|line rest IH]; intros w.
  { simpl. unfold ret. rewrite app_nil_r. by destruct w. }
  simpl. unfold bind, print. rewrite IH. simpl.
  by rewrite <-app_assoc.
Qed.

Lemma print_then (line : string) (m : M unit) (lines : list string) :
  (∀ w, m w = Done tt {| files := files w; dirs := dirs w;
                         out := out w ++ lines |}) →
  ∀ w, bind (print line) (λ _, m) w
       = Done tt {| files := files w; dirs := dirs w;
                    out := out w ++ line :: lines |}.
Proof.
  intros Hm w. unfold bind, print. rewrite Hm. simpl.
  by rewrite <-app_assoc.
Qed.

Lemma ret_prints_nothing (w : world) :
  ret tt w = Done tt {| files := files w; dirs := dirs w;
                        out := out w ++ [] |}.
Proof. unfold ret. rewrite app_nil_r. by destruct w. Qed.

(** The shape of what the analyzer prints: up to four lines of its own,
    then at most one structure listing. *)
Lemma analyze_prints (E : env) (not_found_str : string → string)
    (json_file_path : string) (w : world) :
  ∃ head body,
    analyze_json_structure E not_found_str json_file_path w
    = Done tt {| files := files w; dirs := dirs w;
                 out := out w ++ head ++ body |}
    ∧ 1 ≤ length head ≤ 4
    ∧ (body = [] ∨ ∃ v, body = print_structure v 2 3).
Proof.
  unfold analyze_json_structure.
  destruct (read_json E json_file_path) as [|msg|msg|data];
    try by (eexists [_], []; split; [reflexivity|split; [simpl; lia|by left] ]).
  destruct data as [| | | | |l|d];
    try by (eexists [_; _], []; split;
            [cbn [app]; apply print_then; intros w1; apply print_then;
             apply ret_prints_nothing
            |split; [simpl; lia|by left] ]).
  - destruct l as [|first l].
    + eexists [_; _; _], []. split; [|split; [simpl; lia|by left] ].
      cbn [app]. apply print_then; intros w1. apply print_then; intros w2.
      apply print_then. apply ret_prints_nothing.
    + eexists [_; _; _; _], (print_structure first 2 3).
      split; [|split; [simpl; lia|right; by eexists] ].
      cbn [app]. apply print_then; intros w1. apply print_then; intros w2.
      apply print_then; intros w3. apply print_then.
      apply print_all_spec.
  - eexists [_; _; _; _], (print_structure (JDict d) 2 3).
    split; [|split; [simpl; lia|right; by eexists] ].
    cbn [app]. apply print_then; intros w1. apply print_then; intros w2.
    apply print_then; intros w3. apply print_then.
    apply print_all_spec.
Qed.

(** X13. The analyzer never fails and never touches a file or a
    directory, whatever the input file holds or however loading it
    fails: it only prints, at least one line and at most 159, however
    large the document is. *)
Theorem analyze_only_prints (E : env) (not_found_str : string → string)
    (json_file_path : string) (w : world) :
  ∃ lines,
    analyze_json_structure E not_found_str json_file_path w
    = Done tt {| files := files w; dirs := dirs w; out := out w ++ lines |}
    ∧ 1 ≤ length lines ≤ 159.
Proof.
  destruct (analyze_prints E not_found_str json_file_path w)
    as (head & body & Hrun & Hhead & Hbody).
  exists (head ++ body). split; [done|].
  rewrite length_app.
  destruct Hbody as [-> | [v ->] ]; [simpl; lia|].
  pose proof (print_structure_fuel_nested 5 v 2) as Hlisting.
  unfold print_structure. lia.
Qed.

(** ** The entry point *)

Section LogFree.

Variable E : env.

Lemma log_free_ret {A} (a : A) : log_free (ret a).
Proof. by intros w1 w2 Hfs. Qed.

Lemma log_free_lift {A} (r : result A) : log_free (lift r).
Proof. intros w1 w2 Hfs. unfold lift. by destruct r. Qed.

Lemma log_free_print (line : string) : log_free (print line).
Proof. intros w1 w2 [Hf Hd]. by repeat split. Qed.

Lemma log_free_bind {A B} (m : M A) (k : A → M B) :
  log_free m → (∀ a, log_free (k a)) → log_free (bind m k).
Proof.
  intros Hm Hk w1 w2 Hfs. unfold bind.
  specialize (Hm w1 w2 Hfs).
  destruct (m w1) as [a1 w1'|e1 w1'], (m w2) as [a2 w2'|e2 w2'];
    simpl in Hm; try done.
  destruct Hm as [-> Hfs']. by apply Hk.
Qed.

Lemma log_free_try_except (body : M unit) (handler : exn → M unit) :
  log_free body → (∀ e, log_free (handler e)) →
  log_free (try_except body handler).
Proof.
  intros Hm Hk w1 w2 Hfs. unfold try_except.
  specialize (Hm w1 w2 Hfs).
  destruct (body w1) as [a1 w1'|e1 w1'], (body w2) as [a2 w2'|e2 w2'];
    simpl in Hm; try done.
  destruct Hm as [-> Hfs']. by apply Hk.
Qed.

Lemma log_free_makedirs (d : string) :
  log_free (Fs.makedirs (os_makedirs E) d).
Proof.
  intros w1 w2 [Hf Hd]. unfold Fs.makedirs.
  destruct (String.eqb d ""); [by repeat split|].
  destruct ((os_makedirs E d).2); repeat split; simpl; congruence.
Qed.

Lemma log_free_exists (p : string) :
  log_free (λ w, Done (Fs.exists_ p w) w).
Proof.
  intros w1 w2 [Hf Hd]. simpl. unfold Fs.exists_. rewrite Hf, Hd.
  by repeat split.
Qed.

Lemma log_free_open_w (i : nat) (p : string) : log_free (open_w E i p).
Proof.
  intros w1 w2 [Hf Hd]. unfold open_w.
  destruct (open_fails E i p); simpl; [done|].
  repeat split; simpl; congruence.
Qed.

Lemma log_free_write (i : nat) (p chunk : string) :
  log_free (write E i p chunk).
Proof.
  intros w1 w2 [Hf Hd]. unfold write. rewrite Hf.
  destruct (write_fails E i p _); simpl; [by repeat split|].
  repeat split; simpl; congruence.
Qed.

Lemma dedup_loop_same_fs (fuel : nat) (w1 w2 : world)
    (original_filename md_filename : string) (counter : nat) :
  same_fs w1 w2 →
  dedup_loop fuel w1 original_filename md_filename counter
  = dedup_loop fuel w2 original_filename md_filename counter.
Proof.
  intros [Hf Hd]. revert md_filename counter.
  induction fuel as [|fuel IH]; intros md_filename counter; [done|].
  simpl. unfold Fs.exists_. rewrite Hf, Hd.
  by destruct (_ || _).
Qed.

Lemma log_free_unused_filename (md_filename : string) :
  log_free (unused_filename md_filename).
Proof.
  intros w1 w2 Hfs. unfold unused_filename, same_result. split; [|done].
  rewrite (dedup_loop_same_fs _ w1 w2) by done.
  unfold dedup_fuel. destruct Hfs as [Hf Hd]. by rewrite Hf, Hd.
Qed.

Lemma log_free_write_messages (i : nat) (p : string) (messages : list json) :
  log_free (write_messages E i p messages).
Proof.
  induction messages as [|message rest IH]; [apply log_free_ret|].
  simpl. apply log_free_bind; [|done].
  destruct (Py.is_dict message); [|apply log_free_ret].
  apply log_free_bind; [apply log_free_lift|].
  intros formatted_message. apply log_free_write.
Qed.

Lemma log_free_write_metadata (i : nat) (p : string) (conversation : json) :
  log_free (write_metadata E i p conversation).
Proof.
  unfold write_metadata.
  repeat first
    [ apply log_free_bind
    | apply log_free_lift
    | apply log_free_ret
    | apply log_free_write
    | intros []
    | intros ? ].
Qed.

Lemma log_free_transcript_body (i : nat) (conversation title : json)
    (md_filename : string) :
  log_free (transcript_body E i conversation title md_filename).
Proof.
  unfold transcript_body.
  apply log_free_bind; [apply log_free_write|intros _].
  apply log_free_bind; [apply log_free_write_metadata|intros _].
  apply log_free_bind; [apply log_free_lift|intros messages].
  destruct messages; [apply log_free_write|apply log_free_write_messages].
Qed.

Lemma log_free_convert_one (output_dir : string) (n i : nat)
    (conversation : json) :
  log_free (convert_one E output_dir n i conversation).
Proof.
  unfold convert_one.
  apply log_free_bind; [apply log_free_lift|intros title].
  apply log_free_bind; [apply log_free_lift|intros sanitized_title].
  apply log_free_bind; [apply log_free_unused_filename|intros md_filename].
  apply log_free_try_except; [|intros e; apply log_free_print].
  unfold write_transcript.
  apply log_free_bind; [apply log_free_open_w|intros _].
  apply log_free_bind; [apply log_free_transcript_body|intros _].
  apply log_free_print.
Qed.

Lemma log_free_convert_loop (output_dir : string) (n i : nat)
    (conversations : list json) :
  log_free (convert_loop E output_dir n i conversations).
Proof.
  revert i.
  induction conversations as [|conversation rest IH]; intros i;
    [apply log_free_ret|].
  simpl. apply log_free_bind; [apply log_free_convert_one|intros _].
  apply IH.
Qed.

Lemma log_free_convert (json_file_path output_dir : string) :
  log_free (convert_conversations_to_md E json_file_path output_dir).
Proof.
  unfold convert_conversations_to_md.
  apply log_free_bind; [apply log_free_exists|intros present].
  apply log_free_bind.
  { destruct present; [apply log_free_ret|].
    apply log_free_bind; [apply log_free_makedirs|intros _].
    apply log_free_print. }
  intros _.
  destruct (read_json E json_file_path) as [|msg|msg|data];
    [apply log_free_print
    |apply log_free_bind; [apply log_free_print|intros _];
     apply log_free_print
    |apply log_free_print
    |].
  apply log_free_bind; [apply log_free_lift|intros conversations].
  destruct conversations as [|c cs]; [apply log_free_print|].
  apply log_free_bind; [apply log_free_print|intros _].
  apply log_free_bind; [apply log_free_convert_loop|intros _].
  apply log_free_print.
Qed.

End LogFree.

(** X14. Running the script is running the converter: the analysis that
    [__main__] runs first changes no file and no directory, so the whole
    run ends as [convert_conversations_to_md("conversations.json")]
    alone would, normally or with the same exception, on the same files
    and directories.  Only the console differs. *)
Theorem main_is_conversion (E : env) (not_found_str : string → string)
    (w : world) :
  same_result
    (main E not_found_str w)
    (convert_conversations_to_md E "conversations.json"
       "markdown_transcripts" w).
Proof.
  unfold main. cbv zeta. unfold bind at 1. unfold print at 1.
  unfold bind at 1.
  match goal with
  | |- context [analyze_json_structure E not_found_str ?p ?w'] =>
      destruct (analyze_prints E not_found_str p w')
        as (head & body & -> & _)
  end.
  unfold bind at 1. unfold print at 1.
  apply log_free_convert. by split.
Qed.

(** ** Titles that are not text, and the duplicate loop *)

Lemma first_field_sel_truthy (fields : list string) (obj v : json) :
  first_field sel_truthy fields obj = Ok (Some v) → Py.truthy v = true.
Proof.
  induction fields as [|field rest IH]; simpl; [done|].
  destruct (Py.contains field obj) as [ [|] |e]; simpl; [|done..].
  destruct (Py.getitem obj field) as [v'|e]; simpl; [|done].
  unfold sel_truthy at 1. destruct (Py.truthy v') eqn:Hv; [|done].
  intros H. by assert (v = v') as -> by congruence.
Qed.

Lemma convert_loop_title_not_string (E : env) (output_dir : string)
    (n i : nat) (conversation : json) (rest : list json) (title : json)
    (w : world) :
  extract_conversation_title E conversation = Ok title →
  Py.is_string title = false →
  convert_loop E output_dir n i (conversation :: rest) w
  = Failed TypeError w.
Proof.
  intros Htitle Hstr.
  change (convert_loop E output_dir n i (conversation :: rest))
    with (bind (convert_one E output_dir n i conversation)
            (λ _, convert_loop E output_dir n (S i) rest)).
  unfold bind.
  rewrite (convert_one_sanitize_raises E output_dir n i conversation w
             title TypeError Htitle); [done|].
  by destruct title.
Qed.

(** X15. A conversation whose title is not text ends the whole run: the
    title is sanitized outside the guarded block, so, once the output
    directory is ready, the exception of the first conversation leaves
    the driver right after the count line, with no transcript written, no
    error line printed and the conversations after it never looked at. *)
Theorem non_string_title_aborts (E : env) (json_file_path output_dir : string)
    (w : world) (data conversation : json) (rest : list json) (title : json)
    (Hdir : dir_ready E output_dir w = true)
    (Hload : read_json E json_file_path = Loaded data)
    (Hlist : extract_conversation_list data = Ok (conversation :: rest))
    (Htitle : extract_conversation_title E conversation = Ok title)
    (Hstr : Py.is_string title = false) :
  convert_conversations_to_md E json_file_path output_dir w
  = Failed TypeError
      (printed ("Found " +:+ pretty (length (conversation :: rest))
                +:+ " conversations to convert.")
         (after_makedirs E output_dir w))
  ∧ files (after_makedirs E output_dir w) = files w.
Proof.
  split; [|apply files_after_makedirs].
  rewrite (convert_after_makedirs _ _ _ _ Hdir), Hload.
  unfold bind at 1. unfold lift at 1. rewrite Hlist.
  unfold bind at 1. unfold print at 1.
  unfold bind at 1.
  by rewrite (convert_loop_title_not_string _ _ _ _ _ _ title).
Qed.

Lemma non_string_title_aborts_witness :
  let E := sample_env (JList [JDict [("name", JInt 5)];
                              JDict [("name", JStr "b")]]) false in
  convert_conversations_to_md E "conversations.json" "out" empty_world
  = Failed TypeError
      (printed "Found 2 conversations to convert."
         (after_makedirs E "out" empty_world))
  ∧ files (after_makedirs E "out" empty_world) = files empty_world.
Proof.
  intros E.
  apply (non_string_title_aborts E "conversations.json" "out" empty_world
           (JList [JDict [("name", JInt 5)]; JDict [("name", JStr "b")]])
           (JDict [("name", JInt 5)]) [JDict [("name", JStr "b")]]
           (JInt 5));
    reflexivity.
Defined.

(** X16. The duplicate loop always leaves by its own condition, with a
    filename that is not in use: the original one when that is free, and
    otherwise the numbered one with the least counter, from 1 on, that is
    free.  Nothing is created or printed while it runs, and a larger bound
    on the number of its turns gives the same filename. *)
Theorem duplicate_loop_least_counter (original_filename : string)
    (w : world) :
  ∃ md_filename,
    unused_filename original_filename w = Done md_filename w
    ∧ Fs.exists_ md_filename w = false
    ∧ (Fs.exists_ original_filename w = false
       ∧ md_filename = original_filename
       ∨ Fs.exists_ original_filename w = true
         ∧ ∃ counter,
             1 ≤ counter
             ∧ md_filename = numbered original_filename counter
             ∧ ∀ j, 1 ≤ j < counter →
                    Fs.exists_ (numbered original_filename j) w = true)
    ∧ ∀ extra,
        dedup_loop (extra + dedup_fuel w) w original_filename
          original_filename 1
        = md_filename.
Proof.
  eexists. split; [reflexivity|].
  pose proof (dedup_loop_least w original_filename) as [Hun Hcases].
  split; [exact Hun|]. split; [exact Hcases|].
  intros extra. apply dedup_loop_fuel.
Qed.

(** X17. A title that [extract_conversation_title] returns is never
    empty, whatever the conversation holds: a title field is taken only
    when its value is truthy, and both fallbacks are non-empty text. *)
Theorem title_is_truthy (E : env) (conversation title : json)
    (Htitle : extract_conversation_title E conversation = Ok title) :
  Py.truthy title = true
  ∧ ∀ n i, Py.truthy (override_title n i title) = true.
Proof.
  assert (Py.truthy title = true) as Ht.
  { revert Htitle. unfold extract_conversation_title.
    destruct (first_field sel_truthy title_fields conversation)
      as [ [t|] |e] eqn:Hfield; simpl; [| |done].
    { intros H. assert (title = t) as -> by congruence.
      by apply (first_field_sel_truthy title_fields conversation). }
    destruct (extract_messages conversation) as [ [|m0 ms] |e]; simpl;
      [intros H; by assert (title = JStr "Untitled_Conversation") as ->
         by congruence| |done].
    destruct (py_get m0 "content" (JStr "")) as [fallback|e]; simpl; [|done].
    destruct (py_get m0 "text" fallback) as [v|e]; simpl; [|done].
    destruct (py_slice_to 50 v) as [first_message|e]; simpl; [|done].
    destruct (Py.truthy first_message); intros H.
    - by assert (title = JStr ("Conversation_" +:+ py_str E first_message))
        as -> by congruence.
    - by assert (title = JStr "Untitled_Conversation") as -> by congruence. }
  split; [done|]. intros n i. unfold override_title.
  by destruct (Py.eq_str title "Untitled_Conversation" && (1 <? n)).
Qed.

Lemma title_is_truthy_witness :
  Py.truthy (JStr "T") = true
  ∧ ∀ n i, Py.truthy (override_title n i (JStr "T")) = true.
Proof.
  apply (title_is_truthy (sample_env JNull false)
           (JDict [("name", JStr ""); ("title", JStr "T")]) (JStr "T")).
  reflexivity.
Defined.
